(** * MantraData: the route resolver of [src/lib/core/MantraData.js]

    A shallow embedding of the [MantraData] class and of the JavaScript
    string primitives it relies on, followed by the properties of the
    resolver: base resolution ([setBase]), chain resolution
    ([setRecord]), action resolution ([setAction]), endpoint and alias
    derivation ([setEndpoint]) and validation ([isValid]).

    Conventions of the embedding.
    - A JavaScript string is a [string]; a character is a code unit below
      256.
    - A method of the class is a computation in the monad [M]: it reads
      and mutates the receiver [this : MantraData] and either returns or
      throws; what was mutated before a throw stays mutated.
    - [undefined] and [null] are [None].
    - [MantraPlugin.getSchemasModule()] is the section variable
      [schemas], an object used as a map from entity name to schema.
    - [_trimPath] builds a regular expression out of its argument.  The
      embedding covers the arguments without regular-expression syntax
      characters, which denote themselves, and three kinds of argument
      with such characters whose regular expression is plain to read
      off: a leading [+] or [*] and a dangling [(], which are syntax
      errors, and [$] before literal text, which matches nowhere.  On
      any other argument the computation ends in [Unmodelled], which
      stands for a call that either throws a SyntaxError or returns
      with [_path] as it was or shorter.
    - [Number(value)] is followed up to the distinction between NaN and
      the numbers, which is all that [_isId] looks at.
    - Left out: the base-class table and [setComponent]; the component
      factory is outside the class. *)

From Stdlib Require Import String Ascii List Bool Arith Lia.
From stdpp Require Import gmap strings.

Local Open Scope string_scope.
Local Set Warnings "-register-all".

(* ================================================================== *)
(** ** JavaScript string primitives *)
(* ================================================================== *)

Module JS.

(** [s.split(sep)] for a one-character separator: never empty, the empty
    string splits into one empty segment. *)
Fixpoint split (sep : ascii) (s : string) : list string :=
  match s with
  | EmptyString => [EmptyString]
  | String c s' =>
      if Ascii.eqb c sep then EmptyString :: split sep s'
      else match split sep s' with
           | h :: t => String c h :: t
           | [] => [String c EmptyString]
           end
  end.

(** [arr.join(sep)]. *)
Fixpoint join (sep : string) (l : list string) : string :=
  match l with
  | [] => EmptyString
  | [x] => x
  | x :: rest => x +:+ sep +:+ join sep rest
  end.

(** [s.replace(/[a]/g, b)] for single characters [a] and [b]. *)
Fixpoint replace_char (a b : ascii) (s : string) : string :=
  match s with
  | EmptyString => EmptyString
  | String c s' => String (if Ascii.eqb c a then b else c) (replace_char a b s')
  end.

(** [c] is one of the characters of [cs]. *)
Fixpoint one_of (cs : string) (c : ascii) : bool :=
  match cs with
  | EmptyString => false
  | String d cs' => Ascii.eqb c d || one_of cs' c
  end.

(** LineTerminator code units (below 256): LF and CR.  The pattern
    character [.] matches everything else. *)
Definition line_terminator (c : ascii) : bool :=
  match nat_of_ascii c with
  | 10 | 13 => true
  | _ => false
  end.

(** SyntaxCharacter of the pattern grammar:  ^ $ \ . * + ? ( ) [ ] { } |  *)
Definition syntax_character (c : ascii) : bool :=
  one_of "^$\.*+?()[]{}|" c.

(** A pattern source that denotes itself. *)
Fixpoint literal_source (s : string) : bool :=
  match s with
  | EmptyString => true
  | String c s' => negb (syntax_character c) && literal_source s'
  end.

(** Length of the match of [(lit).?] anchored at the start of [s], when
    there is one: the literal, then greedily one more character unless it
    is a line terminator or the string has ended. *)
Definition match_length (lit s : string) : option nat :=
  if String.prefix lit s then
    Some (String.length lit +
          match String.get (String.length lit) s with
          | Some c => if line_terminator c then 0 else 1
          | None => 0
          end)
  else None.

(** [s.replace(new RegExp(`(${lit}).?`, 'g'), '')] for a literal source
    [lit].  [skip] counts the characters of the current match still to be
    dropped.  An empty match keeps the character it stands before and
    the search resumes one character further. *)
Fixpoint remove_go (lit : string) (skip : nat) (s : string) : string :=
  match s with
  | EmptyString => EmptyString
  | String c s' =>
      match skip with
      | S k => remove_go lit k s'
      | O =>
          match match_length lit s with
          | Some (S k) => remove_go lit k s'
          | _ => String c (remove_go lit 0 s')
          end
      end
  end.

Definition remove_all (lit s : string) : string := remove_go lit 0 s.

(** *** [Number(value)] up to NaN-ness

    The floating-point value is not represented: [Number] of a string is
    NaN exactly when the text is not a StringNumericLiteral, and rounding
    never turns a numeric literal into NaN. *)

Inductive Value := VNull | VString (s : string).

Inductive NumberValue := NaN | Numeric.

Definition Number_isNaN (n : NumberValue) : bool :=
  match n with NaN => true | Numeric => false end.

(** StrWhiteSpaceChar (WhiteSpace and LineTerminator) below 256. *)
Definition str_white_space (c : ascii) : bool :=
  match nat_of_ascii c with
  | 9 | 10 | 11 | 12 | 13 | 32 | 160 => true
  | _ => false
  end.

Definition decimal_digit (c : ascii) : bool :=
  ((48 <=? nat_of_ascii c) && (nat_of_ascii c <=? 57))%nat.

Definition hex_digit (c : ascii) : bool :=
  decimal_digit c
  || ((97 <=? nat_of_ascii c) && (nat_of_ascii c <=? 102))%nat
  || ((65 <=? nat_of_ascii c) && (nat_of_ascii c <=? 70))%nat.

Definition octal_digit (c : ascii) : bool :=
  ((48 <=? nat_of_ascii c) && (nat_of_ascii c <=? 55))%nat.

Definition binary_digit (c : ascii) : bool :=
  ((48 <=? nat_of_ascii c) && (nat_of_ascii c <=? 49))%nat.

Fixpoint drop_while (p : ascii -> bool) (l : list ascii) : list ascii :=
  match l with
  | [] => []
  | c :: l' => if p c then drop_while p l' else l
  end.

Fixpoint take_while (p : ascii -> bool) (l : list ascii) : list ascii :=
  match l with
  | [] => []
  | c :: l' => if p c then c :: take_while p l' else []
  end.

(** One or more characters, all satisfying [p]. *)
Definition some_all (p : ascii -> bool) (l : list ascii) : bool :=
  match l with
  | [] => false
  | _ => forallb p l
  end.

(** SignedInteger: DecimalDigits with an optional sign. *)
Definition signed_integer (l : list ascii) : bool :=
  match l with
  | c :: l' => if one_of "+-" c then some_all decimal_digit l'
               else some_all decimal_digit l
  | [] => false
  end.

(** ExponentPart, optional. *)
Definition exponent_part_opt (l : list ascii) : bool :=
  match l with
  | [] => true
  | c :: l' => one_of "eE" c && signed_integer l'
  end.

(** StrUnsignedDecimalLiteral: [Infinity], or digits with an optional
    fraction and exponent, at least one digit before the exponent. *)
Definition str_unsigned_decimal_literal (l : list ascii) : bool :=
  if decide (l = list_ascii_of_string "Infinity") then true
  else
    let int_part := take_while decimal_digit l in
    match drop_while decimal_digit l with
    | c :: r =>
        if Ascii.eqb c "." then
          let frac_part := take_while decimal_digit r in
          (negb (Nat.eqb (List.length int_part) 0)
           || negb (Nat.eqb (List.length frac_part) 0))
          && exponent_part_opt (drop_while decimal_digit r)
        else negb (Nat.eqb (List.length int_part) 0) && exponent_part_opt (c :: r)
    | [] => negb (Nat.eqb (List.length int_part) 0)
    end.

(** StrDecimalLiteral: an optional sign before the unsigned literal. *)
Definition str_decimal_literal (l : list ascii) : bool :=
  match l with
  | c :: r => if one_of "+-" c then str_unsigned_decimal_literal r
              else str_unsigned_decimal_literal l
  | [] => false
  end.

(** StrNumericLiteral: a decimal literal, or an unsigned hexadecimal,
    octal or binary integer literal. *)
Definition str_numeric_literal (l : list ascii) : bool :=
  match l with
  | c0 :: c1 :: r =>
      if Ascii.eqb c0 "0" && one_of "xX" c1 then some_all hex_digit r
      else if Ascii.eqb c0 "0" && one_of "oO" c1 then some_all octal_digit r
      else if Ascii.eqb c0 "0" && one_of "bB" c1 then some_all binary_digit r
      else str_decimal_literal l
  | _ => str_decimal_literal l
  end.

(** Strip leading and trailing StrWhiteSpaceChar. *)
Definition strip_white_space (l : list ascii) : list ascii :=
  rev (drop_while str_white_space (rev (drop_while str_white_space l))).

(** StringToNumber: blank text is +0, a numeric literal is its value,
    anything else is NaN. *)
Definition StringToNumber (s : string) : NumberValue :=
  match strip_white_space (list_ascii_of_string s) with
  | [] => Numeric
  | l => if str_numeric_literal l then Numeric else NaN
  end.

(** [Number(value)]: [Number(null)] is +0. *)
Definition Number (v : Value) : NumberValue :=
  match v with
  | VNull => Numeric
  | VString s => StringToNumber s
  end.

(** The regular expressions [new RegExp(`(${source}).?`, 'g')] that the
    embedding tells apart: the one of a literal source, and one that
    matches nowhere. *)
Inductive RegExp :=
| Literal (lit : string)
| NeverMatching.

(** [s.replace(re, '')] *)
Definition replace_by_nothing (re : RegExp) (s : string) : string :=
  match re with
  | Literal lit => remove_all lit s
  | NeverMatching => s
  end.

(** The source begins with the quantifier [+] or [*]: in [(${source}).?]
    the group opens on a quantifier with nothing to repeat. *)
Definition starts_with_quantifier (source : string) : bool :=
  match source with
  | String c _ => one_of "+*" c
  | EmptyString => false
  end.

(** The source is literal text and then one [(]: in [(${source}).?] the
    parenthesis of the pattern closes that group and the outer group is
    never closed. *)
Fixpoint literal_then_open_group (source : string) : bool :=
  match source with
  | EmptyString => false
  | String c rest =>
      match rest with
      | EmptyString => Ascii.eqb c "("
      | String _ _ => negb (syntax_character c) && literal_then_open_group rest
      end
  end.

(** The source is [$] and then literal text, at least one character: the
    pattern asks for the end of the text and then for one more
    character. *)
Definition end_then_literal (source : string) : bool :=
  match source with
  | String c (String d rest) => Ascii.eqb c "$" && literal_source (String d rest)
  | _ => false
  end.

(** [lit] occurs somewhere in [s] as a substring. *)
Fixpoint occurs (lit s : string) : bool :=
  String.prefix lit s
  || match s with
     | EmptyString => false
     | String _ s' => occurs lit s'
     end.

(** A segment made of decimal digits only, at least one. *)
Definition digits_only (s : string) : bool :=
  some_all decimal_digit (list_ascii_of_string s).

End JS.

(* ================================================================== *)
(** ** Data model *)
(* ================================================================== *)

(** An action object, as in [DEFAULT_ACTIONS]. *)
Record ActionDescriptor := {
  action_name : string;
  needFetch : bool;
}.

(** The [model] descriptor; [model.name] may be undefined. *)
Record Model := {
  model_name : option string;
}.

(** A schema node.  [actions] and [relationships] may be undefined;
    [actions] is an object used as a map from action name to action,
    [relationships] an array of schema nodes.  ([fields] is never read by
    the resolver and is left out.) *)
Inductive Schema := {
  schema_name : string;
  actions : option (gmap string ActionDescriptor);
  relationships : option (list Schema);
  schema_model : option Model;
}.

(** An entry of [parents]: [{ schema, name, id }]. *)
Record ParentLink := {
  parent_schema : option Schema;
  parent_name : string;
  parent_id : string;
}.

(** What the base class hands back from [getComponent]; each property may
    be missing, as in the initial [{}]. *)
Record Component := {
  _root : option string;
  component_hasModel : option bool;
  component_model : option Model;
}.

(** The receiver.  [schema] starts as [null] and [action] as [''], both
    [None] here. *)
Record MantraData := {
  path : string;
  component : Component;
  parents : list ParentLink;
  name : string;
  schema : option Schema;
  id : string;
  action : option ActionDescriptor;
  context : string;
  endpoint : string;
  _path : string;
  alias : string;
}.

(** [DEFAULT_ACTIONS] *)
Module DEFAULT_ACTIONS.

Definition create : ActionDescriptor :=
  {| action_name := "create"; needFetch := false |}.

Definition update : ActionDescriptor :=
  {| action_name := "update"; needFetch := true |}.

End DEFAULT_ACTIONS.

(** [constructor({ path })] ([baseClass] only selects the component
    factory). *)
Definition constructor (path0 : string) : MantraData :=
  {| path := ""; component := {| _root := None; component_hasModel := None; component_model := None |};
     parents := []; name := ""; schema := None; id := ""; action := None;
     context := ""; endpoint := ""; _path := path0; alias := "" |}.

(** Field assignments [this.f = v]. *)
Definition set_path (v : string) (this : MantraData) : MantraData :=
  {| path := v; component := component this; parents := parents this;
     name := name this; schema := schema this; id := id this;
     action := action this; context := context this;
     endpoint := endpoint this; _path := _path this; alias := alias this |}.

Definition set_component (v : Component) (this : MantraData) : MantraData :=
  {| path := path this; component := v; parents := parents this;
     name := name this; schema := schema this; id := id this;
     action := action this; context := context this;
     endpoint := endpoint this; _path := _path this; alias := alias this |}.

Definition set_parents (v : list ParentLink) (this : MantraData) : MantraData :=
  {| path := path this; component := component this; parents := v;
     name := name this; schema := schema this; id := id this;
     action := action this; context := context this;
     endpoint := endpoint this; _path := _path this; alias := alias this |}.

Definition set_name (v : string) (this : MantraData) : MantraData :=
  {| path := path this; component := component this; parents := parents this;
     name := v; schema := schema this; id := id this;
     action := action this; context := context this;
     endpoint := endpoint this; _path := _path this; alias := alias this |}.

Definition set_schema (v : option Schema) (this : MantraData) : MantraData :=
  {| path := path this; component := component this; parents := parents this;
     name := name this; schema := v; id := id this;
     action := action this; context := context this;
     endpoint := endpoint this; _path := _path this; alias := alias this |}.

Definition set_id (v : string) (this : MantraData) : MantraData :=
  {| path := path this; component := component this; parents := parents this;
     name := name this; schema := schema this; id := v;
     action := action this; context := context this;
     endpoint := endpoint this; _path := _path this; alias := alias this |}.

Definition set_action (v : option ActionDescriptor) (this : MantraData) : MantraData :=
  {| path := path this; component := component this; parents := parents this;
     name := name this; schema := schema this; id := id this;
     action := v; context := context this;
     endpoint := endpoint this; _path := _path this; alias := alias this |}.

Definition set_endpoint (v : string) (this : MantraData) : MantraData :=
  {| path := path this; component := component this; parents := parents this;
     name := name this; schema := schema this; id := id this;
     action := action this; context := context this;
     endpoint := v; _path := _path this; alias := alias this |}.

Definition set__path (v : string) (this : MantraData) : MantraData :=
  {| path := path this; component := component this; parents := parents this;
     name := name this; schema := schema this; id := id this;
     action := action this; context := context this;
     endpoint := endpoint this; _path := v; alias := alias this |}.

Definition set_alias (v : string) (this : MantraData) : MantraData :=
  {| path := path this; component := component this; parents := parents this;
     name := name this; schema := schema this; id := id this;
     action := action this; context := context this;
     endpoint := endpoint this; _path := _path this; alias := v |}.

(* ================================================================== *)
(** ** Methods as computations on the receiver *)
(* ================================================================== *)

(** What a JavaScript [throw] carries here: [new Error(msg)], the
    engine's TypeError for a property read on [undefined] or [null], or
    the SyntaxError of [new RegExp] on a source that is no pattern. *)
Inductive Exception :=
| Error (message : string)
| TypeError
| SyntaxError.

(** How a call ends. *)
Inductive Completion (A : Type) :=
| Return (a : A)
| Throw (e : Exception)
| Unmodelled.
Arguments Return {A} a.
Arguments Throw {A} e.
Arguments Unmodelled {A}.

Definition M (A : Type) : Type := MantraData -> Completion A * MantraData.

Definition ret {A} (a : A) : M A := fun this => (Return a, this).

Definition bind {A B} (m : M A) (k : A -> M B) : M B :=
  fun this =>
    match m this with
    | (Return a, this') => k a this'
    | (Throw e, this') => (Throw e, this')
    | (Unmodelled, this') => (Unmodelled, this')
    end.

Definition throw {A} (e : Exception) : M A := fun this => (Throw e, this).
Definition unmodelled {A} : M A := fun this => (Unmodelled, this).
Definition get {A} (f : MantraData -> A) : M A := fun this => (Return (f this), this).
Definition assign (f : MantraData -> MantraData) : M unit :=
  fun this => (Return tt, f this).

Declare Scope js_scope.
Delimit Scope js_scope with js.
Notation "'let*' x := m 'in' k" := (bind m (fun x => k))
  (at level 10, x name, m at level 100, k at level 200) : js_scope.
Notation "m ;; k" := (bind m (fun _ => k))
  (at level 100, k at level 200, right associativity) : js_scope.
Local Open Scope js_scope.

Section Methods.

(** [MantraPlugin.getSchemasModule()]: an object whose own properties are
    the registered schemas. *)
Variable schemas : gmap string Schema.

(** [getAlias()]: reads [this.component.model.name]; the read of [name]
    throws when [model] is missing.  A name is truthy when it is a
    non-empty string. *)
Definition getAlias : M string :=
  let* c := get component in
  match component_model c with
  | None => throw TypeError
  | Some m =>
      match model_name m with
      | Some (String a n) => ret (String a n)
      | _ =>
          let* e := get endpoint in
          ret (JS.replace_char "/" "-" e)
      end
  end.

(** [setAlias()] *)
Definition setAlias : M unit :=
  let* a := getAlias in
  assign (set_alias a).

(** [get hasModel()] *)
Definition hasModel : M (option bool) :=
  let* c := get component in
  ret (component_hasModel c).

(** [static getFirstPath(path)] *)
Definition getFirstPath (p : string) : string :=
  match JS.split "." p with
  | first :: _ => first
  | [] => EmptyString
  end.

(** [_setName(name)] *)
Definition _setName (name' : string) : M unit := assign (set_name name').

(** [_isSchema(name)]: [hasOwnProperty] on the schemas object. *)
Definition _isSchema (name' : string) : M bool :=
  ret (bool_decide (is_Some (schemas !! name'))).

(** [_setBaseSchema(schema)]: [this.schema = schemas[schema]]. *)
Definition _setBaseSchema (schema' : string) : M unit :=
  assign (set_schema (schemas !! schema')).

(** [_updatePath(path)] *)
Definition _updatePath (p : string) : M unit :=
  let* cur := get path in
  let separator := if decide (cur = "") then "" else "." in
  assign (set_path (cur +:+ separator +:+ p)).

(** [new RegExp(`(${path}).?`, 'g')], the [pathWord] of [_trimPath]. *)
Definition pathWord (source : string) : Completion JS.RegExp :=
  if JS.literal_source source then Return (JS.Literal source)
  else if JS.starts_with_quantifier source then Throw SyntaxError
  else if JS.literal_then_open_group source then Throw SyntaxError
  else if JS.end_then_literal source then Return JS.NeverMatching
  else Unmodelled.

(** [_trimPath(path)]: global replacement of [(path).?] by nothing. *)
Definition _trimPath (p : string) : M unit :=
  match pathWord p with
  | Return re =>
      let* cur := get _path in
      assign (set__path (JS.replace_by_nothing re cur))
  | Throw e => throw e
  | Unmodelled => unmodelled
  end.

(** [updatePath(path)] *)
Definition updatePath (p : string) : M unit :=
  _updatePath p ;;
  _trimPath p.

(** [setBase()] *)
Definition setBase : M unit :=
  let* p := get _path in
  let name' := getFirstPath p in
  let* known := _isSchema name' in
  if negb known then
    throw (Error ("The " +:+ name' +:+ " schema was not found"))
  else
    _setName name' ;;
    _setBaseSchema name' ;;
    updatePath name'.

(** [rel.name === name] over an array of relationships. *)
Definition named (name' : string) (rel : Schema) : bool :=
  bool_decide (schema_name rel = name').

(** [_isRelationship(name)]: reading [relationships] off a [null] schema
    throws. *)
Definition _isRelationship (name' : string) : M bool :=
  let* s := get schema in
  match s with
  | None => throw TypeError
  | Some sch =>
      match relationships sch with
      | None => ret false
      | Some rels => ret (existsb (named name') rels)
      end
  end.

(** [_setRelationshipSchema(name)]: [Array.prototype.find] gives the
    first match or [undefined]. *)
Definition _setRelationshipSchema (name' : string) : M unit :=
  let* s := get schema in
  match s with
  | None => throw TypeError
  | Some sch =>
      match relationships sch with
      | None => throw TypeError
      | Some rels => assign (set_schema (List.find (named name') rels))
      end
  end.

(** [_isId(value)] *)
Definition _isId (value : JS.Value) : bool :=
  let isNull := match value with JS.VNull => true | _ => false end in
  let num_value := JS.Number value in
  let isNaN := JS.Number_isNaN num_value in
  negb isNaN && negb isNull.

(** [_setId(id)] *)
Definition _setId (id' : string) : M unit :=
  assign (set_id id') ;;
  _trimPath id'.

(** [_resetId()] *)
Definition _resetId : M unit := assign (set_id "").

(** [_addParent(entity)]: [push] appends. *)
Definition _addParent (entity : ParentLink) : M unit :=
  let* ps := get parents in
  assign (set_parents (ps ++ [entity])).

(** [_setRelationship(name)] *)
Definition _setRelationship (name' : string) : M unit :=
  let* s := get schema in
  let* n := get name in
  let* i := get id in
  let parentEntity := {| parent_schema := s; parent_name := n; parent_id := i |} in
  _addParent parentEntity ;;
  _setName name' ;;
  _setRelationshipSchema name' ;;
  _resetId ;;
  updatePath name'.

(** The [for (const name of arrPath)] loop of [setRecord], with its
    [continue] and [break]. *)
Fixpoint setRecord_loop (arrPath : list string) : M unit :=
  match arrPath with
  | [] => ret tt
  | name' :: rest =>
      let* isRel := _isRelationship name' in
      if isRel then
        _setRelationship name' ;;
        setRecord_loop rest
      else if _isId (JS.VString name') then
        _setId name' ;;
        setRecord_loop rest
      else ret tt
  end.

(** [setRecord()]: the array is split off [_path] once, before the loop. *)
Definition setRecord : M unit :=
  let* p := get _path in
  let arrPath := JS.split "." p in
  setRecord_loop arrPath.

(** [_isCustomAction()]: [HAS_ACTIONS && actions.hasOwnProperty(action)],
    as a truth value. *)
Definition _isCustomAction : M bool :=
  let* p := get _path in
  let action' := getFirstPath p in
  let* s := get schema in
  match s with
  | None => throw TypeError
  | Some sch =>
      match actions sch with
      | None => ret false
      | Some acts => ret (bool_decide (is_Some (acts !! action')))
      end
  end.

(** [_getCustomAction()]: [this.schema.actions[action]]. *)
Definition _getCustomAction : M (option ActionDescriptor) :=
  let* p := get _path in
  let action' := getFirstPath p in
  let* s := get schema in
  match s with
  | None => throw TypeError
  | Some sch =>
      match actions sch with
      | None => throw TypeError
      | Some acts => ret (acts !! action')
      end
  end.

(** [_isUpdateAction()] *)
Definition _isUpdateAction : M bool :=
  let* i := get id in
  ret (negb (bool_decide (i = ""))).

(** [_getDefaultAction()] *)
Definition _getDefaultAction : M (option ActionDescriptor) :=
  let* upd := _isUpdateAction in
  if upd then ret (Some DEFAULT_ACTIONS.update)
  else ret (Some DEFAULT_ACTIONS.create).

(** [_getAction()] *)
Definition _getAction : M (option ActionDescriptor) :=
  let* custom := _isCustomAction in
  if custom then _getCustomAction
  else _getDefaultAction.

(** [setAction()] *)
Definition setAction : M unit :=
  let* a := _getAction in
  assign (set_action a).

(** [getEndpoint()] *)
Definition getEndpoint : M string :=
  let* p := get path in
  ret (JS.replace_char "." "/" p).

(** [setEndpoint()] *)
Definition setEndpoint : M unit :=
  let* e := getEndpoint in
  assign (set_endpoint e) ;;
  setAlias.

(** [isValid()] *)
Definition isValid : M bool :=
  let* p := get _path in
  let isEmpty := bool_decide (p = "") in
  if negb isEmpty then
    throw (Error "Configuration path was not completely resolved")
  else ret true.

End Methods.

(* ================================================================== *)
(** ** Vocabulary of the properties *)
(* ================================================================== *)

(** [path] once [seg] has been appended by [_updatePath]. *)
Definition append_segment (p seg : string) : string :=
  p +:+ (if decide (p = "") then "" else ".") +:+ seg.

(** How [_trimPath] ends on a source that is not literal text; it
    leaves the receiver as it is in each case. *)
Definition beyond_literal (source : string) : Completion unit :=
  match pathWord source with
  | Return _ => Return tt
  | Throw e => Throw e
  | Unmodelled => Unmodelled
  end.

(** The receiver after a successful [setBase] on segment [seg] bound to
    [sch]. *)
Definition after_setBase (seg : string) (sch : Schema) (this : MantraData) : MantraData :=
  set__path (JS.remove_all seg (_path this))
    (set_path (append_segment (path this) seg)
       (set_schema (Some sch) (set_name seg this))).

(** [_getDefaultAction] as a value. *)
Definition default_action (this : MantraData) : ActionDescriptor :=
  if bool_decide (id this = "") then DEFAULT_ACTIONS.create
  else DEFAULT_ACTIONS.update.

(** A [model.name] that the [if] of [getAlias] takes for false. *)
Definition falsy_name (m : Model) : Prop :=
  model_name m = None \/ model_name m = Some "".

(** The alias that [getAlias] returns once a model is there. *)
Definition derived_alias (m : Model) (endpoint' : string) : string :=
  match model_name m with
  | Some (String c n) => String c n
  | _ => JS.replace_char "/" "-" endpoint'
  end.

(** The first relationship of [sch] named [seg], if any. *)
Definition find_relationship (seg : string) (sch : Schema) : option Schema :=
  match relationships sch with
  | Some rels => List.find (named seg) rels
  | None => None
  end.

(** [seg] is the name of an entry of [sch.relationships]. *)
Definition relationship_name (seg : string) (sch : Schema) : Prop :=
  exists rels rel,
    relationships sch = Some rels /\ In rel rels /\ schema_name rel = seg.

(** The receiver of [_setRelationship] just before its final [_trimPath]. *)
Definition entered_relationship (seg : string) (rel : option Schema)
    (this : MantraData) : MantraData :=
  set_path (append_segment (path this) seg)
    (set_id ""
       (set_schema rel
          (set_name seg
             (set_parents
                (parents this
                 ++ [{| parent_schema := schema this;
                        parent_name := name this;
                        parent_id := id this |}])
                this)))).

(** The receiver after [_setRelationship(seg)] has moved to [rel]. *)
Definition after_setRelationship (seg : string) (rel : Schema)
    (this : MantraData) : MantraData :=
  set__path (JS.remove_all seg (_path this))
    (entered_relationship seg (Some rel) this).

(** The receiver after [_setId(seg)]. *)
Definition after_setId (seg : string) (this : MantraData) : MantraData :=
  set__path (JS.remove_all seg (_path this)) (set_id seg this).

(** [names] is a walk along relationships starting at [sch]. *)
Fixpoint follows (sch : Schema) (names : list string) : Prop :=
  match names with
  | [] => True
  | n :: rest =>
      exists rel, find_relationship n sch = Some rel /\ follows rel rest
  end.

(** No segment's text occurs again in the dot-joined segments after it. *)
Fixpoint no_recurrence (segs : list string) : Prop :=
  match segs with
  | [] => True
  | seg :: rest =>
      (rest = [] \/ JS.occurs seg (JS.join "." rest) = false)
      /\ no_recurrence rest
  end.

(** The dot-separated segments of a path; the empty path has none. *)
Definition segments (p : string) : list string :=
  if decide (p = "") then [] else JS.split "." p.

(** The specification's reading of consumption, first half: going from
    [before] to [after] removes exactly one occurrence of the segment
    [seg]. *)
Definition removes_one_occurrence (seg before after : string) : Prop :=
  exists l r : list string,
    segments before = (l ++ seg :: r)%list /\ segments after = (l ++ r)%list.

(** The specification's reading of consumption, second half: the
    segments of [path] are the segments taken off the input, in order,
    none dropped and none twice, so that with what is left in [_path]
    they make up the input. *)
Definition resolved_are_the_removed (input : string) (this : MantraData) : Prop :=
  segments input = (segments (path this) ++ segments (_path this))%list.

(** The specification's reading of a stop of the scan: the segment at
    which it stopped is still one of the segments of [_path]. *)
Definition left_in_remaining (seg : string) (this : MantraData) : Prop :=
  In seg (segments (_path this)).

(** The specification's reading of alias derivation: the endpoint is
    [path] with slashes for dots, the alias is the model's name when
    there is a model with a name and the endpoint with hyphens for
    slashes in every other case. *)
Definition alias_as_specified (this this' : MantraData) : Prop :=
  endpoint this' = JS.replace_char "." "/" (path this)
  /\ alias this'
     = match component_model (component this) with
       | Some m => derived_alias m (endpoint this')
       | None => JS.replace_char "/" "-" (endpoint this')
       end.

(* ================================================================== *)
(** ** A registry to run the resolver on *)
(* ================================================================== *)

(** [posts] declares the action [create]; [users] has [posts] as its only
    relationship; [widgets] has a model; [comments] nests comments under
    comments; the registry knows [users], [widgets] and [comments]. *)
Definition posts_schema : Schema :=
  {| schema_name := "posts";
     actions := Some {[ "create" := {| action_name := "create"; needFetch := false |} ]};
     relationships := None;
     schema_model := None |}.

Definition users_schema : Schema :=
  {| schema_name := "users";
     actions := None;
     relationships := Some [posts_schema];
     schema_model := None |}.

Definition widgets_schema : Schema :=
  {| schema_name := "widgets";
     actions := None;
     relationships := None;
     schema_model := Some {| model_name := Some "Widget" |} |}.

Definition replies_schema : Schema :=
  {| schema_name := "comments";
     actions := None;
     relationships := None;
     schema_model := None |}.

Definition comments_schema : Schema :=
  {| schema_name := "comments";
     actions := None;
     relationships := Some [replies_schema];
     schema_model := None |}.

Definition registry : gmap string Schema :=
  {[ "users" := users_schema; "widgets" := widgets_schema;
     "comments" := comments_schema ]}.

(** [setBase] and then [setRecord] on a fresh receiver. *)
Definition base_and_chain (input : string) : Completion unit * MantraData :=
  bind (setBase registry) (fun _ => setRecord) (constructor input).

(** A receiver whose component has no model, after [users.posts] was
    resolved. *)
Definition data_without_model : MantraData :=
  set_component
    {| _root := Some "forms"; component_hasModel := Some false; component_model := None |}
    (set_path "users.posts" (constructor "")).

(** A receiver whose component carries the model [Widget]. *)
Definition data_with_model : MantraData :=
  set_component
    {| _root := Some "forms"; component_hasModel := Some true;
       component_model := Some {| model_name := Some "Widget" |} |}
    (set_path "widgets" (set_id "7" (constructor ""))).

(** A receiver focused on [users], [5.posts] left to scan, and one
    focused on [posts] with [create] left. *)
Definition at_users : MantraData :=
  after_setBase "users" users_schema (constructor "users.5.posts").

Definition at_posts : MantraData :=
  set_schema (Some posts_schema) (set_id "5" (constructor "create")).

(** A receiver whose component has a model without a name. *)
Definition data_with_unnamed_model : MantraData :=
  set_component
    {| _root := None; component_hasModel := None;
       component_model := Some {| model_name := None |} |}
    data_without_model.

(** A receiver focused on [posts] with [create.x] left. *)
Definition at_posts_create_x : MantraData :=
  set_schema (Some posts_schema) (set_id "5" (constructor "create.x")).

(** A registry whose entity names carry regular-expression syntax
    characters. *)
Definition unescaped_registry : gmap string Schema :=
  {[ "$users" := users_schema; "users(" := users_schema ]}.

(** A receiver that has resolved [users.5] and has nothing left. *)
Definition users_5_resolved : MantraData :=
  set_id "5" (set__path "" at_users).

(* ================================================================== *)
(** ** The storage paths and the schema class *)
(* ================================================================== *)

(** A template-literal hole [${v}]: a missing value prints as
    [undefined]. *)
Definition template (v : option string) : string :=
  match v with
  | Some s => s
  | None => "undefined"
  end.

(** [get storePath()] *)
Definition storePath : M string :=
  let* a := get alias in
  ret ("states." +:+ a).

(** [get configPath()] *)
Definition configPath : M string :=
  let* c := get component in
  let* a := get alias in
  ret (template (_root c) +:+ "." +:+ a).

(** [get statePath()] *)
Definition statePath : M string :=
  let* c := get component in
  let* a := get alias in
  ret (template (_root c) +:+ "." +:+ a +:+ ".value").

(** [get sourcePath()] *)
Definition sourcePath : M string :=
  let* c := get component in
  let* a := get alias in
  ret (template (_root c) +:+ "." +:+ a +:+ ".source").

(** [new MantraSchema({ name, fields, actions, model })]: the constructor
    copies its four arguments and sets nothing else, so [relationships]
    is undefined.  ([fields] is stored and never read.) *)
Definition MantraSchema (name' : string)
    (actions' : option (gmap string ActionDescriptor))
    (model' : option Model) : Schema :=
  {| schema_name := name';
     actions := actions';
     relationships := None;
     schema_model := model' |}.

(** A receiver focused on a schema fresh from the constructor, with
    [5.comments] left to scan. *)
Definition at_fresh_schema : MantraData :=
  set_schema (Some (MantraSchema "posts" None None)) (constructor "5.comments").

(** [c] is one of the characters of [s]. *)
Fixpoint has_char (c : ascii) (s : string) : bool :=
  match s with
  | EmptyString => false
  | String d s' => Ascii.eqb d c || has_char c s'
  end.

(** A Latin letter, [a]-[z] or [A]-[Z]. *)
Definition ascii_letter (c : ascii) : bool :=
  (((97 <=? nat_of_ascii c) && (nat_of_ascii c <=? 122))
   || ((65 <=? nat_of_ascii c) && (nat_of_ascii c <=? 90)))%nat.

(** Text made of white space only; the empty text is. *)
Definition white_space_only (s : string) : bool :=
  forallb JS.str_white_space (list_ascii_of_string s).

(** [b] is [a] or is reached from [a] by walking relationships, each
    time to the first relationship of some name. *)
Inductive reaches (a : Schema) : Schema -> Prop :=
| reaches_here : reaches a a
| reaches_step (b c : Schema) (n : string) :
    reaches a b -> find_relationship n b = Some c -> reaches a c.

(** The schema in focus has no action stored under the empty name. *)
Definition no_unnamed_action (sch : Schema) : Prop :=
  match actions sch with
  | Some acts => acts !! "" = None
  | None => True
  end.

(* ================================================================== *)
(** ** Facts about the string primitives *)
(* ================================================================== *)

Module JSFacts.
Import JS.

Lemma prefix_append (a s : string) : String.prefix a (a +:+ s) = true.
Proof.
  induction a as [|c a IH]; simpl.
  - now destruct s.
  - destruct (ascii_dec c c); [exact IH | congruence].
Qed.

Lemma get_append_length (a : string) (c : ascii) (s : string) :
  String.get (String.length a) (a +:+ String c s) = Some c.
Proof. induction a as [|d a IH]; simpl; [reflexivity | exact IH]. Qed.

Lemma get_length_self (a : string) : String.get (String.length a) a = None.
Proof. induction a as [|d a IH]; simpl; [reflexivity | exact IH]. Qed.

Lemma append_cons (d : ascii) (a s : string) :
  String d a +:+ s = String d (a +:+ s).
Proof. reflexivity. Qed.

Lemma append_empty_r (a : string) : a +:+ "" = a.
Proof.
  induction a as [|d a IH]; [reflexivity | rewrite append_cons; f_equal; exact IH].
Qed.

Lemma append_assoc (a b c : string) : (a +:+ b) +:+ c = a +:+ (b +:+ c).
Proof.
  induction a as [|d a IH]; [reflexivity | rewrite !append_cons; f_equal; exact IH].
Qed.

Lemma length_append_one (a : string) (c : ascii) :
  String.length (a +:+ String c "") = S (String.length a).
Proof.
  induction a as [|d a IH]; [reflexivity | rewrite append_cons; simpl; now rewrite IH].
Qed.

(** Dropping the rest of a match. *)
Lemma remove_go_skip (lit a s : string) :
  remove_go lit (String.length a) (a +:+ s) = remove_go lit 0 s.
Proof.
  induction a as [|d a IH]; simpl.
  - destruct s; reflexivity.
  - exact IH.
Qed.

Lemma match_length_head (lit : string) (c : ascii) (s : string) :
  line_terminator c = false ->
  match_length lit (lit +:+ String c s) = Some (S (String.length lit)).
Proof.
  intros Hc. unfold match_length.
  rewrite prefix_append, get_append_length, Hc.
  f_equal. lia.
Qed.

(** A match at the head takes the literal and the character after it;
    the search goes on behind them. *)
Lemma remove_all_head (lit : string) (c : ascii) (s : string) :
  line_terminator c = false ->
  remove_all lit (lit +:+ String c s) = remove_all lit s.
Proof.
  intros Hc. unfold remove_all.
  pose proof (match_length_head lit c s Hc) as Hm.
  destruct lit as [|d lit].
  - change ("" +:+ String c s) with (String c s) in *.
    cbn [remove_go]. rewrite Hm. reflexivity.
  - rewrite append_cons in *. cbn [remove_go]. rewrite Hm.
    pose proof (remove_go_skip (String d lit) (lit +:+ String c "") s) as Hs.
    rewrite append_assoc, length_append_one in Hs. exact Hs.
Qed.

(** The whole string is one match. *)
Lemma remove_all_self (lit : string) : remove_all lit lit = "".
Proof.
  unfold remove_all. destruct lit as [|d lit]; [reflexivity|].
  cbn [remove_go]. unfold match_length.
  pose proof (prefix_append (String d lit) "") as Hp.
  rewrite append_empty_r in Hp. rewrite Hp, get_length_self, Nat.add_0_r.
  simpl String.length.
  pose proof (remove_go_skip (String d lit) lit "") as Hs.
  rewrite append_empty_r in Hs. exact Hs.
Qed.

(** Without an occurrence nothing is removed. *)
Lemma remove_all_absent (lit s : string) :
  occurs lit s = false -> remove_all lit s = s.
Proof.
  unfold remove_all. induction s as [|c s IH]; intros H; [reflexivity|].
  simpl in H. apply orb_false_iff in H as [Hp Ho].
  cbn [remove_go]. unfold match_length.
  change (String.prefix lit (String c s)) with
    (match lit with EmptyString => true | String a lit' =>
       if ascii_dec a c then String.prefix lit' s else false end) in *.
  rewrite Hp. f_equal. auto.
Qed.

Lemma occurs_empty (s : string) : occurs "" s = true.
Proof. destruct s; reflexivity. Qed.

Lemma literal_not_dot (c : ascii) :
  syntax_character c = false -> Ascii.eqb c "." = false.
Proof.
  intros H. destruct (Ascii.eqb_spec c ".") as [->|]; [discriminate H | reflexivity].
Qed.

Lemma split_nonempty (s : string) : split "." s <> [].
Proof.
  destruct s as [|c s]; cbn; [discriminate|].
  destruct (Ascii.eqb c "."); [discriminate|].
  destruct (split "." s); discriminate.
Qed.

(** A literal source has no dot: it is one segment. *)
Lemma split_literal (n : string) :
  literal_source n = true -> split "." n = [n].
Proof.
  induction n as [|c n IH]; [reflexivity|].
  cbn [literal_source]. intros H. apply andb_true_iff in H as [Hc Hn].
  apply negb_true_iff in Hc. cbn [split].
  now rewrite (literal_not_dot c Hc), (IH Hn).
Qed.

Lemma split_literal_dot (n rest : string) :
  literal_source n = true ->
  split "." (n +:+ String "." rest) = n :: split "." rest.
Proof.
  induction n as [|c n IH]; [reflexivity|].
  cbn [literal_source]. intros H. apply andb_true_iff in H as [Hc Hn].
  apply negb_true_iff in Hc. rewrite append_cons. cbn [split].
  now rewrite (literal_not_dot c Hc), (IH Hn).
Qed.

Lemma join_cons (x y : string) (l : list string) :
  join "." (x :: y :: l) = x +:+ String "." (join "." (y :: l)).
Proof. reflexivity. Qed.

(** Splitting undoes joining when no segment has a dot. *)
Lemma split_join (l : list string) :
  l <> [] -> Forall (fun n => literal_source n = true) l ->
  split "." (join "." l) = l.
Proof.
  induction l as [|x [|y l] IH]; intros Hne Hl; [congruence | |].
  - apply split_literal. now inversion Hl.
  - rewrite join_cons. inversion Hl as [|? ? Hx Hrest]; subst.
    rewrite (split_literal_dot _ _ Hx). f_equal. apply IH; [discriminate | exact Hrest].
Qed.

End JSFacts.

Module NumberFacts.
Import JS.

Ltac by_cases_on c :=
  destruct c as [[] [] [] [] [] [] [] []]; vm_compute; intros; congruence.

Lemma digit_not_space (c : ascii) :
  decimal_digit c = true -> str_white_space c = false.
Proof. by_cases_on c. Qed.

Lemma digit_not_sign (c : ascii) :
  decimal_digit c = true -> one_of "+-" c = false.
Proof. by_cases_on c. Qed.

Lemma digit_not_radix (c : ascii) :
  decimal_digit c = true ->
  one_of "xX" c = false /\ one_of "oO" c = false /\ one_of "bB" c = false.
Proof.
  intros H. repeat split; revert H; by_cases_on c.
Qed.

Lemma take_while_all (p : ascii -> bool) (l : list ascii) :
  forallb p l = true -> take_while p l = l.
Proof.
  induction l as [|c l IH]; simpl; [reflexivity|].
  intros H. apply andb_true_iff in H as [Hc Hl]. rewrite Hc. f_equal. auto.
Qed.

Lemma drop_while_all (p : ascii -> bool) (l : list ascii) :
  forallb p l = true -> drop_while p l = [].
Proof.
  induction l as [|c l IH]; simpl; [reflexivity|].
  intros H. apply andb_true_iff in H as [Hc Hl]. rewrite Hc. auto.
Qed.

Lemma drop_space_digits (l : list ascii) :
  forallb decimal_digit l = true -> drop_while str_white_space l = l.
Proof.
  destruct l as [|c l]; simpl; [reflexivity|].
  intros H. apply andb_true_iff in H as [Hc _].
  now rewrite (digit_not_space c Hc).
Qed.

Lemma forallb_rev_digits (l : list ascii) :
  forallb decimal_digit l = true -> forallb decimal_digit (rev l) = true.
Proof.
  rewrite !forallb_forall. intros H c Hc. apply H. now apply in_rev.
Qed.

Lemma strip_digits (l : list ascii) :
  forallb decimal_digit l = true -> strip_white_space l = l.
Proof.
  intros H. unfold strip_white_space.
  rewrite (drop_space_digits l H).
  rewrite (drop_space_digits (rev l) (forallb_rev_digits l H)).
  apply rev_involutive.
Qed.

Lemma unsigned_digits (l : list ascii) :
  l <> [] -> forallb decimal_digit l = true ->
  str_unsigned_decimal_literal l = true.
Proof.
  intros Hne H. unfold str_unsigned_decimal_literal.
  destruct (decide (l = list_ascii_of_string "Infinity")); [reflexivity|].
  rewrite (drop_while_all _ _ H), (take_while_all _ _ H).
  destruct l; [congruence | reflexivity].
Qed.

Lemma decimal_digits (l : list ascii) :
  l <> [] -> forallb decimal_digit l = true -> str_decimal_literal l = true.
Proof.
  intros Hne H. destruct l as [|c l]; [congruence|].
  unfold str_decimal_literal.
  pose proof H as H'. simpl in H'. apply andb_true_iff in H' as [Hc _].
  rewrite (digit_not_sign c Hc). now apply unsigned_digits.
Qed.

Lemma numeric_digits (l : list ascii) :
  l <> [] -> forallb decimal_digit l = true -> str_numeric_literal l = true.
Proof.
  intros Hne H. destruct l as [|c0 [|c1 r]]; [congruence | |].
  - now apply decimal_digits.
  - unfold str_numeric_literal.
    assert (Hc1 : decimal_digit c1 = true).
    { simpl in H. apply andb_true_iff in H as [_ H].
      now apply andb_true_iff in H as [H _]. }
    destruct (digit_not_radix c1 Hc1) as (-> & -> & ->).
    rewrite !andb_false_r. now apply decimal_digits.
Qed.

(** Digit-only text is never NaN. *)
Lemma StringToNumber_digits (s : string) :
  digits_only s = true -> StringToNumber s = Numeric.
Proof.
  unfold digits_only, StringToNumber, some_all. intros H.
  destruct (list_ascii_of_string s) as [|c l] eqn:E; [discriminate|].
  rewrite (strip_digits _ H).
  now rewrite (numeric_digits (c :: l)).
Qed.

End NumberFacts.

(** The primitives on a few inputs. *)
Example split_ex : JS.split "." "users.5.posts" = ["users"; "5"; "posts"].
Proof. reflexivity. Qed.

Example split_empty_ex : JS.split "." "" = [""].
Proof. reflexivity. Qed.

Example split_trailing_ex : JS.split "." "posts." = ["posts"; ""].
Proof. reflexivity. Qed.

Example remove_ex1 : JS.remove_all "users" "users.5.posts" = "5.posts".
Proof. reflexivity. Qed.

Example remove_ex2 : JS.remove_all "5" "5.posts.5" = "posts.".
Proof. reflexivity. Qed.

Example remove_ex3 : JS.remove_all "" "a.b" = "".
Proof. reflexivity. Qed.

Example remove_ex4 : JS.remove_all "posts" "posts.12.postsfoo" = "12.oo".
Proof. reflexivity. Qed.

Example number_numeric_ex :
  map JS.StringToNumber
    ["0"; ""; " 12 "; "1e5"; "1e+5"; "0x1f"; "0b1"; "0o17"; "-.5"; "5."; "Infinity"; "-Infinity"]
  = repeat JS.Numeric 12.
Proof. reflexivity. Qed.

Example number_nan_ex :
  map JS.StringToNumber
    ["null"; "posts"; "."; "1e"; "+0x1"; "0x"; "0b2"; "12px"; "1_0"; "1 2"; "infinity"; "+"]
  = repeat JS.NaN 12.
Proof. reflexivity. Qed.

(* ================================================================== *)
(** ** Facts about segments *)
(* ================================================================== *)

Module SegmentFacts.
Import JS.

Lemma split_never_empty (sep : ascii) (s : string) : split sep s <> [].
Proof.
  destruct s as [|c s]; cbn; [discriminate|].
  destruct (Ascii.eqb c sep); [discriminate|].
  destruct (split sep s); discriminate.
Qed.

Lemma split_cons_other (sep c : ascii) (s : string) :
  Ascii.eqb c sep = false ->
  exists h t, split sep s = h :: t /\ split sep (String c s) = String c h :: t.
Proof.
  intros Hc. cbn [split]. rewrite Hc.
  destruct (split sep s) as [|h t] eqn:E.
  - now destruct (split_never_empty sep s).
  - eauto.
Qed.

(** Without the separator there is one segment. *)
Lemma split_absent (sep : ascii) (s : string) :
  has_char sep s = false -> split sep s = [s].
Proof.
  induction s as [|c s IH]; [reflexivity|].
  cbn [has_char]. intros H. apply orb_false_iff in H as [Hc Hs].
  cbn [split]. now rewrite Hc, (IH Hs).
Qed.

(** Splitting distributes over a separator in the middle. *)
Lemma split_middle (sep : ascii) (a b : string) :
  split sep (a +:+ String sep b) = (split sep a ++ split sep b)%list.
Proof.
  induction a as [|c a IH].
  - change ("" +:+ String sep b) with (String sep b).
    cbn [split]. now rewrite Ascii.eqb_refl.
  - rewrite JSFacts.append_cons. cbn [split].
    destruct (Ascii.eqb c sep); rewrite IH; [reflexivity|].
    destruct (split sep a) as [|h t] eqn:E; [now destruct (split_never_empty sep a)|].
    reflexivity.
Qed.

Lemma head_split_no_sep (sep : ascii) (s : string) :
  forall h t, split sep s = h :: t -> has_char sep h = false.
Proof.
  induction s as [|c s IH]; intros h t.
  - cbn. now intros [= <- <-].
  - cbn [split]. destruct (Ascii.eqb c sep) eqn:Hc.
    + now intros [= <- <-].
    + destruct (split sep s) as [|h' t'] eqn:E.
      * now destruct (split_never_empty sep s).
      * intros [= <- <-]. cbn [has_char]. rewrite Hc. exact (IH h' t' eq_refl).
Qed.

Lemma replace_char_length (a b : ascii) (s : string) :
  String.length (replace_char a b s) = String.length s.
Proof. induction s as [|c s IH]; cbn; [reflexivity | now rewrite IH]. Qed.

(** The replaced character is gone. *)
Lemma replace_char_gone (a b : ascii) (s : string) :
  a <> b -> has_char a (replace_char a b s) = false.
Proof.
  intros Hab. induction s as [|c s IH]; [reflexivity|].
  cbn [replace_char has_char]. rewrite IH, orb_false_r.
  destruct (Ascii.eqb_spec c a) as [->|Hc].
  - apply Ascii.eqb_neq. congruence.
  - now apply Ascii.eqb_neq.
Qed.

(** A character that was absent and is not the replacement stays
    absent. *)
Lemma replace_char_keeps_absent (a b c : ascii) (s : string) :
  c <> b -> has_char c s = false -> has_char c (replace_char a b s) = false.
Proof.
  intros Hcb. induction s as [|d s IH]; [reflexivity|].
  cbn [replace_char has_char]. intros H. apply orb_false_iff in H as [Hd Hs].
  rewrite (IH Hs), orb_false_r.
  destruct (Ascii.eqb d a); [|exact Hd].
  apply Ascii.eqb_neq. congruence.
Qed.

(** Replacing the separator by a character that does not occur carries
    the segments over. *)
Lemma split_replace_char (a b : ascii) (s : string) :
  has_char b s = false ->
  split b (replace_char a b s) = map (replace_char a b) (split a s).
Proof.
  induction s as [|c s IH]; [reflexivity|].
  cbn [has_char]. intros H. apply orb_false_iff in H as [Hc Hs].
  specialize (IH Hs). cbn [replace_char split].
  destruct (Ascii.eqb c a) eqn:Hca.
  - rewrite Ascii.eqb_refl. cbn [map]. now rewrite IH.
  - rewrite Hc, IH.
    destruct (split a s) as [|h t] eqn:E; [now destruct (split_never_empty a s)|].
    cbn [map replace_char]. now rewrite Hca.
Qed.

Lemma replace_char_absent (a b : ascii) (s : string) :
  has_char a s = false -> replace_char a b s = s.
Proof.
  induction s as [|c s IH]; [reflexivity|].
  cbn [has_char replace_char]. intros H. apply orb_false_iff in H as [Hc Hs].
  now rewrite Hc, (IH Hs).
Qed.

Lemma split_segments_no_sep (sep : ascii) (s : string) :
  Forall (fun seg => has_char sep seg = false) (split sep s).
Proof.
  induction s as [|c s IH]; [repeat constructor|].
  cbn [split]. destruct (Ascii.eqb c sep) eqn:Hc.
  - constructor; [reflexivity | exact IH].
  - destruct (split sep s) as [|h t] eqn:E; [repeat constructor; cbn; now rewrite Hc|].
    inversion IH as [|? ? Hh Ht]; subst.
    constructor; [|exact Ht]. cbn [has_char]. now rewrite Hc.
Qed.

(** Joining undoes splitting. *)
Lemma join_split (s : string) : join "." (split "." s) = s.
Proof.
  induction s as [|c s IH]; [reflexivity|].
  cbn [split]. destruct (Ascii.eqb_spec c ".") as [->|Hc].
  - destruct (split "." s) as [|h t] eqn:E; [now destruct (split_never_empty "." s)|].
    rewrite JSFacts.join_cons, IH. reflexivity.
  - destruct (split "." s) as [|h [|h' t]] eqn:E.
    + now destruct (split_never_empty "." s).
    + cbn in IH. cbn. now rewrite IH.
    + rewrite JSFacts.join_cons in *. rewrite JSFacts.append_cons, IH. reflexivity.
Qed.

(** The first segment of a path that begins with dot-free text. *)
Lemma split_head (seg : string) (p : string) :
  has_char "." seg = false ->
  p = seg \/ (exists rest, p = seg +:+ "." +:+ rest) ->
  exists tl, split "." p = seg :: tl.
Proof.
  intros Hseg [-> | [rest ->]].
  - exists []. now apply split_absent.
  - change (seg +:+ "." +:+ rest) with (seg +:+ String "." rest).
    rewrite split_middle, (split_absent "." seg Hseg). eauto.
Qed.

End SegmentFacts.

(* ================================================================== *)
(** ** Properties of the resolver *)
(* ================================================================== *)

(** Unfolds the plumbing of the monad. *)
Ltac run := unfold bind, get, ret, assign, throw, unmodelled; cbn beta iota.

Section Resolver.

Variable schemas : gmap string Schema.

(** *** Identifiers *)

(** C4: [_isId] holds exactly of the values that are not [null] and whose
    numeric coercion is not NaN; it holds of every digit-only segment,
    of ["0"] and of the empty string, and fails on ["null"] and on
    ["posts"]. *)
Theorem isId_characterisation :
  (forall v : JS.Value,
      _isId v = true <-> v <> JS.VNull /\ JS.Number_isNaN (JS.Number v) = false)
  /\ (forall s : string, JS.digits_only s = true -> _isId (JS.VString s) = true)
  /\ _isId (JS.VString "0") = true
  /\ _isId (JS.VString "") = true
  /\ _isId (JS.VString "null") = false
  /\ _isId (JS.VString "posts") = false.
Proof.
  split; [|split; [|repeat split]].
  - intros v. unfold _isId. destruct v as [|s]; simpl.
    + split; [discriminate | intros [H _]; congruence].
    + rewrite andb_true_r, negb_true_iff. split.
      * intros H. split; [discriminate | exact H].
      * intros [_ H]. exact H.
  - intros s H. unfold _isId. simpl.
    now rewrite (NumberFacts.StringToNumber_digits s H).
Qed.

(** *** Base resolution *)

Lemma set__path_same (this : MantraData) : set__path (_path this) this = this.
Proof. now destruct this. Qed.

Lemma trimPath_eq (seg : string) (this : MantraData) :
  _trimPath seg this
  = if JS.literal_source seg
    then (Return tt, set__path (JS.remove_all seg (_path this)) this)
    else (beyond_literal seg, this).
Proof.
  unfold _trimPath, beyond_literal, pathWord.
  destruct (JS.literal_source seg); [reflexivity|].
  destruct (JS.starts_with_quantifier seg); [reflexivity|].
  destruct (JS.literal_then_open_group seg); [reflexivity|].
  destruct (JS.end_then_literal seg); [|reflexivity].
  run. cbn [JS.replace_by_nothing]. now rewrite set__path_same.
Qed.

Lemma first_segment_cases (p : string) :
  p = getFirstPath p \/ exists rest, p = getFirstPath p +:+ String "." rest.
Proof.
  unfold getFirstPath. induction p as [|c p IH]; [left; reflexivity|].
  cbn [JS.split]. destruct (Ascii.eqb_spec c ".") as [->|Hc].
  - right. exists p. reflexivity.
  - destruct (JS.split "." p) as [|h t] eqn:E.
    + exfalso. destruct p as [|d p]; cbn in E; [discriminate|].
      destruct (Ascii.eqb d "."); [discriminate|].
      destruct (JS.split "." p); discriminate.
    + destruct IH as [IH | [rest IH]].
      * left. now rewrite IH at 1.
      * right. exists rest. now rewrite IH at 1.
Qed.

Lemma setBase_found (this : MantraData) (sch : Schema) :
  schemas !! getFirstPath (_path this) = Some sch ->
  setBase schemas this
  = _trimPath (getFirstPath (_path this))
      (set_path (append_segment (path this) (getFirstPath (_path this)))
         (set_schema (Some sch) (set_name (getFirstPath (_path this)) this))).
Proof.
  intros E. unfold setBase, _isSchema. run.
  rewrite bool_decide_eq_true_2 by (rewrite E; eauto). cbn [negb].
  unfold _setName, _setBaseSchema, updatePath, _updatePath. run.
  rewrite E. reflexivity.
Qed.

(** X21: [setBase] looks at the first dot-separated segment of [_path].
    It throws "The <segment> schema was not found", changing nothing,
    when the registry has no schema under that name, and that error on
    no other occasion.  Otherwise it binds [schema] to the registry's
    schema and [name] to the segment and appends the segment to [path];
    and when the segment is free of regular-expression syntax characters
    it returns with the segment, and the dot behind it, trimmed off the
    head of [_path]. *)
Theorem setBase_spec (this : MantraData) :
  let seg := getFirstPath (_path this) in
  let not_found := Error ("The " +:+ seg +:+ " schema was not found") in
  (schemas !! seg = None -> setBase schemas this = (Throw not_found, this))
  /\ (fst (setBase schemas this) = Throw not_found <-> schemas !! seg = None)
  /\ (forall sch, schemas !! seg = Some sch ->
        let this' := snd (setBase schemas this) in
        schema this' = Some sch
        /\ name this' = seg
        /\ path this' = append_segment (path this) seg
        /\ (JS.literal_source seg = true ->
            setBase schemas this = (Return tt, after_setBase seg sch this)
            /\ ((_path this = seg /\ _path this' = "")
                \/ exists rest,
                     _path this = seg +:+ "." +:+ rest
                     /\ _path this' = JS.remove_all seg rest))).
Proof.
  intros seg not_found. pose proof (setBase_found this) as Hrun. fold seg in Hrun.
  assert (Hnone : schemas !! seg = None ->
                  setBase schemas this = (Throw not_found, this)).
  { intros E. unfold setBase, _isSchema. run. fold seg.
    rewrite bool_decide_eq_false_2 by (rewrite E; intros [? ?]; discriminate).
    reflexivity. }
  split; [exact Hnone|]. split.
  - destruct (schemas !! seg) as [sch|] eqn:E.
    + rewrite (Hrun sch eq_refl), trimPath_eq.
      split; [|discriminate].
      destruct (JS.literal_source seg); [discriminate|].
      unfold beyond_literal, pathWord.
      repeat match goal with
             | |- context [if ?b then _ else _] => destruct b
             end; discriminate.
    + split; [reflexivity|]. intros _. now rewrite Hnone.
  - intros sch E this'. subst this'. rewrite (Hrun sch E), trimPath_eq.
    destruct (JS.literal_source seg) eqn:Hlit; cbn [snd].
    + do 3 (split; [reflexivity|]).
      intros _. split; [reflexivity|].
      destruct (first_segment_cases (_path this)) as [Hp | [rest Hp]]; fold seg in Hp.
      * left. split; [exact Hp|]. cbn. rewrite Hp.
        apply JSFacts.remove_all_self.
      * right. exists rest. split; [exact Hp|]. cbn. rewrite Hp.
        now apply JSFacts.remove_all_head.
    + do 3 (split; [reflexivity|]). discriminate.
Qed.

(** *** Action resolution *)

Lemma setAction_eq (this : MantraData) (sch : Schema) :
  schema this = Some sch ->
  setAction this
  = (Return tt,
     set_action
       match actions sch with
       | Some acts =>
           match acts !! getFirstPath (_path this) with
           | Some a => Some a
           | None => Some (default_action this)
           end
       | None => Some (default_action this)
       end this).
Proof.
  intros Hs.
  unfold setAction, _getAction, _isCustomAction, _getCustomAction,
    _getDefaultAction, _isUpdateAction, default_action. run. rewrite Hs.
  destruct (actions sch) as [acts|] eqn:Ha; run.
  - destruct (acts !! getFirstPath (_path this)) as [a|] eqn:Hl.
    + rewrite bool_decide_eq_true_2 by eauto. rewrite Hs, Ha. run. now rewrite Hl.
    + rewrite bool_decide_eq_false_2 by (intros [? ?]; discriminate).
      now destruct (bool_decide (id this = "")).
  - now destruct (bool_decide (id this = "")).
Qed.


(** C6: [setAction] assigns [action] and nothing else, whether it finds a
    custom action, falls back to a built-in one or throws: [_path] keeps
    the segment that named the custom action, and [path], [schema],
    [name], [id] and [parents] (and every other property) are as before. *)
Theorem setAction_frame (this : MantraData) :
  let this' := snd (setAction this) in
  this' = set_action (action this') this
  /\ _path this' = _path this
  /\ path this' = path this
  /\ schema this' = schema this
  /\ name this' = name this
  /\ id this' = id this
  /\ parents this' = parents this.
Proof.
  assert (H : snd (setAction this) = set_action (action (snd (setAction this))) this).
  { destruct (schema this) as [sch|] eqn:Hs.
    - rewrite (setAction_eq this sch Hs). reflexivity.
    - unfold setAction, _getAction, _isCustomAction. run. rewrite Hs.
      destruct this; reflexivity. }
  cbv zeta. split; [exact H|]. rewrite H. repeat split.
Qed.

(** *** Validation *)

(** C7: [isValid] throws "Configuration path was not completely resolved"
    exactly when [_path] is not empty, and returns [true] exactly when it
    is; it changes nothing. *)
Theorem isValid_spec (this : MantraData) :
  (isValid this
   = (Throw (Error "Configuration path was not completely resolved"), this)
   <-> _path this <> "")
  /\ (isValid this = (Return true, this) <-> _path this = "").
Proof.
  unfold isValid. run.
  destruct (decide (_path this = "")) as [E|E].
  - rewrite bool_decide_eq_true_2 by exact E. cbn [negb].
    split; split; try congruence; auto.
  - rewrite bool_decide_eq_false_2 by exact E. cbn [negb].
    split; split; try congruence; auto.
Qed.

(** *** Endpoint and alias *)

(** C10: [getAlias] reads [component.model.name] whatever [hasModel]
    says.  With no [model] it throws a TypeError, and so does [setAlias],
    leaving the receiver as it was; it returns only when there is a
    model: the model's name when that is a non-empty string, the
    endpoint with hyphens for slashes when the name is undefined or
    empty. *)
Theorem getAlias_partial (this : MantraData) :
  (forall root flag,
      let c := {| _root := root; component_hasModel := flag; component_model := None |} in
      getAlias (set_component c this) = (Throw TypeError, set_component c this)
      /\ setAlias (set_component c this) = (Throw TypeError, set_component c this))
  /\ (component_model (component this) = None ->
      getAlias this = (Throw TypeError, this) /\ setAlias this = (Throw TypeError, this))
  /\ (forall a this', getAlias this = (Return a, this') ->
      exists m, component_model (component this) = Some m /\ this' = this
        /\ (falsy_name m -> a = JS.replace_char "/" "-" (endpoint this))
        /\ (~ falsy_name m -> model_name m = Some a)).
Proof.
  split; [|split].
  - intros root flag c. unfold setAlias, getAlias. run. split; reflexivity.
  - intros H. unfold setAlias, getAlias. run. rewrite H. split; reflexivity.
  - intros a this'. unfold getAlias, falsy_name. run.
    destruct (component_model (component this)) as [m|]; [|discriminate].
    destruct (model_name m) as [[|c n]|] eqn:E; run; intros [= <- <-];
      exists m; repeat split; auto; try congruence.
    + intros H. exfalso. apply H. auto.
    + intros [H|H]; congruence.
    + intros H. exfalso. apply H. auto.
Qed.

(** C8, amended: when the component has a model, [setEndpoint] sets
    [endpoint] to [path] with every dot replaced by a slash, and [alias]
    to the model's name verbatim when that is a non-empty string, else
    to the endpoint with every slash replaced by a hyphen. *)
Theorem setEndpoint_with_model (this : MantraData) (m : Model) :
  component_model (component this) = Some m ->
  let e := JS.replace_char "." "/" (path this) in
  setEndpoint this = (Return tt, set_alias (derived_alias m e) (set_endpoint e this))
  /\ (forall n, model_name m = Some n -> n <> "" -> derived_alias m e = n)
  /\ (falsy_name m -> derived_alias m e = JS.replace_char "/" "-" e).
Proof.
  intros Hm e. unfold setEndpoint, getEndpoint, setAlias, getAlias, derived_alias, falsy_name.
  run. fold e. cbn [component set_endpoint]. rewrite Hm.
  repeat split.
  - destruct (model_name m) as [[|c n]|]; reflexivity.
  - intros n -> Hn. destruct n; congruence.
  - intros [-> | ->]; reflexivity.
Qed.

(** *** Chain resolution *)

Lemma find_relationship_name (seg : string) (sch : Schema) :
  relationship_name seg sch <-> exists rel, find_relationship seg sch = Some rel.
Proof.
  unfold relationship_name, find_relationship. split.
  - intros (rels & rel & -> & Hin & Hn).
    destruct (List.find (named seg) rels) as [r|] eqn:E; [eauto|].
    exfalso. pose proof (find_none _ _ E rel Hin) as H.
    unfold named in H. now rewrite bool_decide_eq_true_2 in H.
  - intros [rel H]. destruct (relationships sch) as [rels|]; [|discriminate].
    apply find_some in H as [Hin Hn]. exists rels, rel. repeat split; auto.
    unfold named in Hn. now apply bool_decide_eq_true_1 in Hn.
Qed.

Lemma find_relationship_named (seg : string) (sch rel : Schema) :
  find_relationship seg sch = Some rel -> schema_name rel = seg.
Proof.
  unfold find_relationship. destruct (relationships sch) as [rels|]; [|discriminate].
  intros H. apply find_some in H as [_ Hn].
  unfold named in Hn. now apply bool_decide_eq_true_1 in Hn.
Qed.

Lemma isRelationship_eq (seg : string) (this : MantraData) (sch : Schema) :
  schema this = Some sch ->
  _isRelationship seg this
  = (Return (match find_relationship seg sch with Some _ => true | None => false end),
     this).
Proof.
  intros Hs. unfold _isRelationship, find_relationship. run. rewrite Hs.
  destruct (relationships sch) as [rels|]; [|reflexivity]. run.
  do 2 f_equal. clear. induction rels as [|r rels IH]; [reflexivity|].
  simpl. destruct (named seg r); [reflexivity | exact IH].
Qed.

Lemma setRelationship_eq (seg : string) (this : MantraData) (sch : Schema) :
  schema this = Some sch ->
  find_relationship seg sch <> None ->
  _setRelationship seg this
  = _trimPath seg (entered_relationship seg (find_relationship seg sch) this).
Proof.
  intros Hs. unfold find_relationship.
  destruct (relationships sch) as [rels|] eqn:Hr; [|congruence]. intros _.
  unfold _setRelationship, _addParent, _setName, _setRelationshipSchema, _resetId,
    updatePath, _updatePath. run.
  cbn [schema set_name set_parents]. rewrite Hs, Hr. run.
  f_equal. unfold entered_relationship, append_segment. rewrite Hs.
  destruct this; reflexivity.
Qed.

Lemma setId_eq (seg : string) (this : MantraData) :
  _setId seg this = _trimPath seg (set_id seg this).
Proof. reflexivity. Qed.

Lemma setRecord_loop_cons (seg : string) (rest : list string)
    (this : MantraData) (sch : Schema) :
  schema this = Some sch ->
  setRecord_loop (seg :: rest) this
  = match find_relationship seg sch with
    | Some _ => bind (_setRelationship seg) (fun _ => setRecord_loop rest) this
    | None =>
        if _isId (JS.VString seg)
        then bind (_setId seg) (fun _ => setRecord_loop rest) this
        else (Return tt, this)
    end.
Proof.
  intros Hs. cbn [setRecord_loop]. unfold bind at 1.
  rewrite (isRelationship_eq seg this sch Hs).
  destruct (find_relationship seg sch); [reflexivity|].
  now destruct (_isId (JS.VString seg)).
Qed.


(** *** Consumption of segments *)

Lemma setRecord_loop_path (segs : list string) :
  forall this : MantraData,
    exists names : list string,
      names `sublist_of` segs
      /\ path (snd (setRecord_loop segs this))
         = fold_left append_segment names (path this).
Proof.
  induction segs as [|seg rest IH]; intros this.
  - exists []. split; [constructor | reflexivity].
  - destruct (schema this) as [sch|] eqn:Hs.
    + rewrite (setRecord_loop_cons seg rest this sch Hs).
      destruct (find_relationship seg sch) as [rel|] eqn:E.
      * unfold bind. rewrite (setRelationship_eq seg this sch Hs) by congruence.
        rewrite trimPath_eq.
        destruct (JS.literal_source seg); [|destruct (beyond_literal seg)].
        -- match goal with |- context [setRecord_loop rest ?t] =>
             destruct (IH t) as (names & Hsub & Hp) end.
           exists (seg :: names). split; [now constructor|].
           rewrite Hp. reflexivity.
        -- match goal with |- context [setRecord_loop rest ?t] =>
             destruct (IH t) as (names & Hsub & Hp) end.
           exists (seg :: names). split; [now constructor|].
           rewrite Hp. reflexivity.
        -- exists [seg]. split; [constructor; apply sublist_nil_l | reflexivity].
        -- exists [seg]. split; [constructor; apply sublist_nil_l | reflexivity].
      * destruct (_isId (JS.VString seg)).
        -- unfold bind. rewrite setId_eq, trimPath_eq.
           destruct (JS.literal_source seg); [|destruct (beyond_literal seg)].
           ++ match goal with |- context [setRecord_loop rest ?t] =>
                destruct (IH t) as (names & Hsub & Hp) end.
              exists names. split; [now constructor|].
              rewrite Hp. reflexivity.
           ++ match goal with |- context [setRecord_loop rest ?t] =>
                destruct (IH t) as (names & Hsub & Hp) end.
              exists names. split; [now constructor|].
              rewrite Hp. reflexivity.
           ++ exists []. split; [apply sublist_nil_l | reflexivity].
           ++ exists []. split; [apply sublist_nil_l | reflexivity].
        -- exists []. split; [apply sublist_nil_l | reflexivity].
    + exists []. split; [apply sublist_nil_l|].
      cbn [setRecord_loop]. unfold bind, _isRelationship. run. now rewrite Hs.
Qed.


(** *** Paths of relationship names *)

Lemma append_segment_fold (names : list string) :
  forall p : string,
    p <> "" -> fold_left append_segment names p = JS.join "." (p :: names).
Proof.
  induction names as [|n rest IH]; intros p Hp; [reflexivity|].
  cbn [fold_left]. rewrite IH.
  - unfold append_segment. destruct (decide (p = "")) as [|_]; [congruence|].
    destruct rest as [|r rest]; [reflexivity|].
    rewrite !JSFacts.join_cons.
    change (p +:+ "." +:+ n) with (p +:+ String "." n).
    rewrite JSFacts.append_assoc. reflexivity.
  - unfold append_segment. destruct p; [congruence | discriminate].
Qed.

Lemma remove_all_joined (n : string) (rest : list string) :
  no_recurrence (n :: rest) ->
  JS.remove_all n (JS.join "." (n :: rest)) = JS.join "." rest.
Proof.
  intros [Hn _]. destruct rest as [|r rest].
  - apply JSFacts.remove_all_self.
  - destruct Hn as [Hn|Hn]; [discriminate|].
    rewrite JSFacts.join_cons, JSFacts.remove_all_head by reflexivity.
    now apply JSFacts.remove_all_absent.
Qed.

Lemma setRecord_loop_follows (names : list string) :
  forall (this : MantraData) (sch : Schema),
    schema this = Some sch ->
    follows sch names ->
    Forall (fun n => JS.literal_source n = true) names ->
    no_recurrence names ->
    _path this = JS.join "." names ->
    exists this',
      setRecord_loop names this = (Return tt, this')
      /\ path this' = fold_left append_segment names (path this)
      /\ _path this' = ""
      /\ length (parents this') = (length (parents this) + length names)%nat.
Proof.
  induction names as [|n rest IH]; intros this sch Hs Hf Hl Hr Hp.
  - exists this. repeat split; [exact Hp | cbn; lia].
  - destruct Hf as (rel & Hrel & Hf).
    inversion Hl as [|? ? Hn Hrest]; subst.
    rewrite (setRecord_loop_cons n rest this sch Hs), Hrel.
    unfold bind. rewrite (setRelationship_eq n this sch Hs) by congruence.
    rewrite trimPath_eq, Hn, Hrel.
    destruct (IH (set__path
                    (JS.remove_all n (_path (entered_relationship n (Some rel) this)))
                    (entered_relationship n (Some rel) this)) rel)
      as (this' & Hrun & Hpath & Hleft & Hpar); auto.
    + exact (proj2 Hr).
    + cbn. rewrite Hp. now apply remove_all_joined.
    + exists this'. split; [exact Hrun|]. split; [exact Hpath|]. split; [exact Hleft|].
      rewrite Hpar. cbn. rewrite length_app. cbn. lia.
Qed.

(** X20: a path made of a registered root followed by relationship
    names along the schemas, no text recurring, is consumed whole: [path]
    becomes the input again, [_path] is empty and one parent was pushed
    for each relationship. *)
Theorem relationship_chain_round_trip (root : string) (names : list string)
    (sch : Schema) :
  schemas !! root = Some sch ->
  follows sch names ->
  names <> [] ->
  Forall (fun n => JS.literal_source n = true) (root :: names) ->
  no_recurrence (root :: names) ->
  exists this',
    bind (setBase schemas) (fun _ => setRecord)
      (constructor (JS.join "." (root :: names)))
    = (Return tt, this')
    /\ path this' = JS.join "." (root :: names)
    /\ _path this' = ""
    /\ length (parents this') = length names.
Proof.
  intros Hreg Hf Hne Hl Hr.
  inversion Hl as [|? ? Hroot Hnames]; subst.
  destruct names as [|n rest]; [congruence|].
  assert (Hfirst : getFirstPath (JS.join "." (root :: n :: rest)) = root).
  { unfold getFirstPath. rewrite JSFacts.join_cons.
    now rewrite (JSFacts.split_literal_dot _ _ Hroot). }
  assert (Hroot_ne : root <> "").
  { destruct Hr as [[Hr|Hr] _]; [discriminate|].
    intros ->. now rewrite JSFacts.occurs_empty in Hr. }
  unfold bind at 1.
  rewrite (setBase_found (constructor (JS.join "." (root :: n :: rest))) sch)
    by (cbn [_path constructor]; now rewrite Hfirst).
  cbn [_path constructor path]. rewrite Hfirst, trimPath_eq, Hroot.
  cbn [_path set_path set_schema set_name constructor].
  rewrite (remove_all_joined root (n :: rest) Hr).
  unfold setRecord. run. cbn [_path set__path].
  rewrite (JSFacts.split_join (n :: rest)) by (auto; discriminate).
  match goal with |- context [setRecord_loop _ ?t] =>
    destruct (setRecord_loop_follows (n :: rest) t sch)
      as (this' & Hrun & Hpath & Hleft & Hpar) end;
    auto; try exact (proj2 Hr).
  exists this'. split; [exact Hrun|]. split; [|split; [exact Hleft | exact Hpar]].
  rewrite Hpath. cbn [path set__path set_path].
  change (append_segment "" root) with ("" +:+ "" +:+ root).
  change ("" +:+ "" +:+ root) with root.
  now apply append_segment_fold.
Qed.

End Resolver.

Example resolve_users_5_posts :
  base_and_chain "users.5.posts"
  = (Return tt,
     after_setRelationship "posts" posts_schema
       (after_setId "5"
          (after_setBase "users" users_schema (constructor "users.5.posts")))).
Proof. vm_compute. reflexivity. Qed.

(** *** The theorems at work on the registry *)

Lemma isId_characterisation_witness :
  _isId (JS.VString "42") = true /\ _isId (JS.VString "007") = true.
Proof.
  split; apply (proj1 (proj2 isId_characterisation)); reflexivity.
Defined.

Lemma setBase_spec_witness :
  setBase registry (constructor "users.5.posts") = (Return tt, at_users)
  /\ _path at_users = "5.posts"
  /\ setBase registry (constructor "posts.5")
     = (Throw (Error "The posts schema was not found"), constructor "posts.5").
Proof.
  split; [|split].
  - apply (proj2 (proj2 (setBase_spec registry (constructor "users.5.posts")))
             users_schema eq_refl).
    reflexivity.
  - reflexivity.
  - apply (proj1 (setBase_spec registry (constructor "posts.5"))). reflexivity.
Defined.


Lemma isValid_spec_witness :
  isValid (constructor "") = (Return true, constructor "")
  /\ isValid at_posts
     = (Throw (Error "Configuration path was not completely resolved"), at_posts).
Proof.
  split.
  - apply (proj2 (isValid_spec (constructor ""))). reflexivity.
  - apply (proj1 (isValid_spec at_posts)). discriminate.
Defined.

Lemma getAlias_partial_witness :
  getAlias data_without_model = (Throw TypeError, data_without_model)
  /\ setAlias data_without_model = (Throw TypeError, data_without_model).
Proof.
  apply (proj1 (proj2 (getAlias_partial data_without_model))). reflexivity.
Defined.

Lemma setEndpoint_with_model_witness :
  setEndpoint data_with_model
  = (Return tt, set_alias "Widget" (set_endpoint "widgets" data_with_model))
  /\ setEndpoint data_with_unnamed_model
     = (Return tt,
        set_alias "users-posts" (set_endpoint "users/posts" data_with_unnamed_model)).
Proof.
  split.
  - apply (proj1 (setEndpoint_with_model data_with_model
                    {| model_name := Some "Widget" |} eq_refl)).
  - apply (proj1 (setEndpoint_with_model data_with_unnamed_model
                    {| model_name := None |} eq_refl)).
Defined.



Lemma relationship_chain_round_trip_witness :
  exists this',
    base_and_chain "users.posts" = (Return tt, this')
    /\ path this' = "users.posts"
    /\ _path this' = ""
    /\ length (parents this') = 1%nat.
Proof.
  apply (relationship_chain_round_trip registry "users" ["posts"] users_schema).
  - reflexivity.
  - exists posts_schema. split; [reflexivity | exact I].
  - discriminate.
  - repeat constructor.
  - repeat split; auto.
Defined.

(** *** Where the code departs from the specification *)


(** The same on [users.5.posts.5]: trimming the first [5] takes the
    second one along, and the scan still visits it. *)
Example resolve_users_5_posts_5 :
  JS.remove_all "5" "5.posts.5" = "posts."
  /\ fst (base_and_chain "users.5.posts.5") = Return tt
  /\ path (snd (base_and_chain "users.5.posts.5")) = "users.posts"
  /\ _path (snd (base_and_chain "users.5.posts.5")) = ""
  /\ id (snd (base_and_chain "users.5.posts.5")) = "5".
Proof. repeat split. Qed.


(** C3 on entity names with regular-expression syntax characters: with
    [$users] registered, [setBase] on [$users.5] binds [schema], [name]
    and [path] and returns, but [_path] is still [$users.5]; with
    [users(] registered, [setBase] on [users(.5] binds them and then
    throws a SyntaxError. *)
Example setBase_unescaped_segment :
  fst (setBase unescaped_registry (constructor "$users.5")) = Return tt
  /\ schema (snd (setBase unescaped_registry (constructor "$users.5")))
     = Some users_schema
  /\ name (snd (setBase unescaped_registry (constructor "$users.5"))) = "$users"
  /\ path (snd (setBase unescaped_registry (constructor "$users.5"))) = "$users"
  /\ _path (snd (setBase unescaped_registry (constructor "$users.5"))) = "$users.5"
  /\ fst (setBase unescaped_registry (constructor "users(.5")) = Throw SyntaxError
  /\ name (snd (setBase unescaped_registry (constructor "users(.5"))) = "users("
  /\ _path (snd (setBase unescaped_registry (constructor "users(.5"))) = "users(.5".
Proof. repeat split; vm_compute; reflexivity. Qed.

(** C8, refuted: with a component that has no model, [setEndpoint]
    derives the endpoint and then throws; the alias stays empty instead
    of becoming [users-posts]. *)
Lemma setEndpoint_counterexample :
  setEndpoint data_without_model
  = (Throw TypeError, set_endpoint "users/posts" data_without_model)
  /\ alias (snd (setEndpoint data_without_model)) = ""
  /\ ~ alias_as_specified data_without_model (snd (setEndpoint data_without_model)).
Proof.
  repeat split.
  intros [_ H]. vm_compute in H. discriminate H.
Qed.

(** C9 on [users.5], a registered root followed by a valid id: both
    segments are consumed, [id] is [5], and [path] is [users], not the
    input. *)
Example round_trip_users_5 :
  fst (base_and_chain "users.5") = Return tt
  /\ _path (snd (base_and_chain "users.5")) = ""
  /\ id (snd (base_and_chain "users.5")) = "5"
  /\ path (snd (base_and_chain "users.5")) = "users"
  /\ path (snd (base_and_chain "users.5")) <> "users.5".
Proof. repeat split. vm_compute. discriminate. Qed.

(* ================================================================== *)
(** ** Further properties: segments, endpoints and storage paths *)
(* ================================================================== *)

(** X1: [getFirstPath] returns what stands before the first dot: the
    result has no dot, the path is the result alone or the result, a dot
    and a rest, and a path without a dot is returned whole. *)
Theorem getFirstPath_prefix (p : string) :
  has_char "." (getFirstPath p) = false
  /\ (p = getFirstPath p \/ exists rest, p = getFirstPath p +:+ "." +:+ rest)
  /\ (has_char "." p = false -> getFirstPath p = p).
Proof.
  split; [|split].
  - unfold getFirstPath.
    destruct (JS.split "." p) as [|h t] eqn:E; [reflexivity|].
    exact (SegmentFacts.head_split_no_sep "." p h t E).
  - exact (first_segment_cases p).
  - intros H. unfold getFirstPath. now rewrite (SegmentFacts.split_absent "." p H).
Qed.

(** X2: [getEndpoint] leaves the receiver alone and returns a text as
    long as [path] and free of dots; when [path] has no slash of its own,
    the slash-separated segments of the endpoint are the dot-separated
    segments of [path]. *)
Theorem getEndpoint_segments (this : MantraData) :
  exists e,
    getEndpoint this = (Return e, this)
    /\ String.length e = String.length (path this)
    /\ has_char "." e = false
    /\ (has_char "/" (path this) = false ->
        JS.split "/" e = JS.split "." (path this)).
Proof.
  exists (JS.replace_char "." "/" (path this)).
  split; [reflexivity|]. split; [apply SegmentFacts.replace_char_length|].
  split; [now apply SegmentFacts.replace_char_gone|].
  intros H. rewrite (SegmentFacts.split_replace_char "." "/" _ H).
  pose proof (SegmentFacts.split_segments_no_sep "." (path this)) as Hall.
  induction Hall as [|seg l Hseg _ IH]; [reflexivity|].
  cbn [map]. now rewrite (SegmentFacts.replace_char_absent "." "/" seg Hseg), IH.
Qed.

Lemma setEndpoint_unnamed (this : MantraData) (m : Model) :
  component_model (component this) = Some m ->
  falsy_name m ->
  setEndpoint this
  = (Return tt,
     set_alias (JS.replace_char "/" "-" (JS.replace_char "." "/" (path this)))
       (set_endpoint (JS.replace_char "." "/" (path this)) this)).
Proof.
  intros Hm Hf. unfold setEndpoint, getEndpoint, setAlias, getAlias. run.
  cbn [component set_endpoint]. rewrite Hm.
  destruct Hf as [-> | ->]; reflexivity.
Qed.

(** X3: when the component's model has no name, the alias that
    [setEndpoint] derives is as long as [path] and has neither dot nor
    slash, so [storePath] is [states], a dot and the alias: two segments. *)
Theorem derived_alias_is_one_segment (this : MantraData) (m : Model) :
  component_model (component this) = Some m ->
  falsy_name m ->
  fst (setEndpoint this) = Return tt
  /\ String.length (alias (snd (setEndpoint this))) = String.length (path this)
  /\ has_char "." (alias (snd (setEndpoint this))) = false
  /\ has_char "/" (alias (snd (setEndpoint this))) = false
  /\ exists p,
       storePath (snd (setEndpoint this)) = (Return p, snd (setEndpoint this))
       /\ JS.split "." p = ["states"; alias (snd (setEndpoint this))].
Proof.
  intros Hm Hf. rewrite (setEndpoint_unnamed this m Hm Hf). cbn [fst snd alias set_alias].
  assert (Hdot : has_char "."
                   (JS.replace_char "/" "-" (JS.replace_char "." "/" (path this)))
                 = false).
  { apply SegmentFacts.replace_char_keeps_absent; [discriminate|].
    now apply SegmentFacts.replace_char_gone. }
  split; [reflexivity|]. split; [now rewrite !SegmentFacts.replace_char_length|].
  split; [exact Hdot|]. split; [now apply SegmentFacts.replace_char_gone|].
  eexists. split; [reflexivity|]. cbn [alias set_alias].
  change ("states." +:+ ?a) with ("states" +:+ String "." a).
  rewrite SegmentFacts.split_middle, (SegmentFacts.split_absent "." _ Hdot).
  reflexivity.
Qed.

(** X4: the four storage paths are read without touching the receiver;
    split at the dots, [storePath] is [states] followed by the segments
    of the alias, [configPath] is the segments of the root (the text
    [undefined] when the component has none) followed by those of the
    alias, and [statePath] and [sourcePath] are [configPath] followed by
    [value] and by [source]. *)
Theorem storage_paths (this : MantraData) :
  exists store config state source,
    storePath this = (Return store, this)
    /\ configPath this = (Return config, this)
    /\ statePath this = (Return state, this)
    /\ sourcePath this = (Return source, this)
    /\ JS.split "." store = "states" :: JS.split "." (alias this)
    /\ JS.split "." config
       = (JS.split "." (template (_root (component this)))
          ++ JS.split "." (alias this))%list
    /\ JS.split "." state = (JS.split "." config ++ ["value"])%list
    /\ JS.split "." source = (JS.split "." config ++ ["source"])%list
    /\ (_root (component this) = None -> config = "undefined." +:+ alias this).
Proof.
  do 4 eexists. do 4 (split; [reflexivity|]).
  set (r := template (_root (component this))). set (a := alias this).
  assert (Hc : JS.split "." (r +:+ "." +:+ a)
               = (JS.split "." r ++ JS.split "." a)%list)
    by apply SegmentFacts.split_middle.
  split; [|split; [exact Hc|split; [|split]]].
  - change ("states." +:+ a) with ("states" +:+ String "." a).
    now rewrite SegmentFacts.split_middle.
  - replace (r +:+ "." +:+ a +:+ ".value")
      with ((r +:+ "." +:+ a) +:+ String "." "value").
    + now rewrite SegmentFacts.split_middle.
    + rewrite JSFacts.append_assoc. reflexivity.
  - replace (r +:+ "." +:+ a +:+ ".source")
      with ((r +:+ "." +:+ a) +:+ String "." "source").
    + now rewrite SegmentFacts.split_middle.
    + rewrite JSFacts.append_assoc. reflexivity.
  - intros Hr. subst r. now rewrite Hr.
Qed.

(** X5: with a component that has no model, [setEndpoint] fails half
    way: it throws a TypeError after [endpoint] has been replaced, and
    [alias] is what it was. *)
Theorem setEndpoint_without_model (this : MantraData) :
  component_model (component this) = None ->
  setEndpoint this
  = (Throw TypeError, set_endpoint (JS.replace_char "." "/" (path this)) this)
  /\ alias (snd (setEndpoint this)) = alias this
  /\ endpoint (snd (setEndpoint this)) = JS.replace_char "." "/" (path this).
Proof.
  intros Hm.
  assert (H : setEndpoint this
              = (Throw TypeError,
                 set_endpoint (JS.replace_char "." "/" (path this)) this)).
  { unfold setEndpoint, getEndpoint, setAlias, getAlias. run.
    cbn [component set_endpoint]. now rewrite Hm. }
  rewrite H. repeat split.
Qed.

(* ================================================================== *)
(** ** Further properties: what the scan keeps *)
(* ================================================================== *)

(** Whatever holds of the receiver and is kept by entering a
    relationship, by setting an id and by trimming, holds after the
    loop. *)
Lemma setRecord_loop_invariant (P : MantraData -> Prop) :
  (forall this seg sch rel,
      schema this = Some sch -> find_relationship seg sch = Some rel ->
      P this -> P (entered_relationship seg (Some rel) this)) ->
  (forall this seg sch,
      schema this = Some sch -> find_relationship seg sch = None ->
      _isId (JS.VString seg) = true ->
      P this -> P (set_id seg this)) ->
  (forall this seg,
      JS.literal_source seg = true ->
      P this -> P (set__path (JS.remove_all seg (_path this)) this)) ->
  forall segs this, P this -> P (snd (setRecord_loop segs this)).
Proof.
  intros Hrel Hid Htrim. induction segs as [|seg rest IH]; intros this HP; [exact HP|].
  destruct (schema this) as [sch|] eqn:Hs.
  - rewrite (setRecord_loop_cons seg rest this sch Hs).
    destruct (find_relationship seg sch) as [rel|] eqn:E.
    + unfold bind. rewrite (setRelationship_eq seg this sch Hs) by congruence.
      rewrite trimPath_eq, E.
      pose proof (Hrel this seg sch rel Hs E HP) as HP'.
      destruct (JS.literal_source seg) eqn:Hlit; [|destruct (beyond_literal seg)].
      * apply IH. now apply Htrim.
      * now apply IH.
      * exact HP'.
      * exact HP'.
    + destruct (_isId (JS.VString seg)) eqn:Hi; [|exact HP].
      unfold bind. rewrite setId_eq, trimPath_eq.
      pose proof (Hid this seg sch Hs E Hi HP) as HP'.
      destruct (JS.literal_source seg) eqn:Hlit; [|destruct (beyond_literal seg)].
      * apply IH. now apply Htrim.
      * now apply IH.
      * exact HP'.
      * exact HP'.
  - cbn [setRecord_loop]. unfold bind, _isRelationship. run. now rewrite Hs.
Qed.

(** X6: without a schema in focus, as on a receiver on which [setBase]
    has not run, [setRecord] throws a TypeError at the very first
    segment, whatever [_path] holds, and changes nothing. *)
Theorem setRecord_throws (this : MantraData) :
  schema this = None ->
  setRecord this = (Throw TypeError, this)
  /\ forall segs, segs <> [] -> setRecord_loop segs this = (Throw TypeError, this).
Proof.
  intros Hs.
  assert (Hloop : forall segs, segs <> [] ->
                  setRecord_loop segs this = (Throw TypeError, this)).
  { intros [|seg rest] Hne; [congruence|].
    cbn [setRecord_loop]. unfold bind, _isRelationship. run. now rewrite Hs. }
  split; [|exact Hloop].
  unfold setRecord. run. apply Hloop. apply JSFacts.split_nonempty.
Qed.


(** X8: [setRecord] only ever appends to [parents], one link for each
    segment it appends to [path]; the names of the links it pushed,
    followed by the name now in focus, are the name that was in focus
    followed by those segments. *)
Theorem setRecord_parents_chain (this : MantraData) :
  exists (names : list string) (added : list ParentLink),
    parents (snd (setRecord this)) = (parents this ++ added)%list
    /\ length added = length names
    /\ (map parent_name added ++ [name (snd (setRecord this))])%list
       = name this :: names
    /\ path (snd (setRecord this)) = fold_left append_segment names (path this).
Proof.
  unfold setRecord. run.
  apply (setRecord_loop_invariant
           (fun t => exists names added,
                parents t = (parents this ++ added)%list
                /\ length added = length names
                /\ (map parent_name added ++ [name t])%list = name this :: names
                /\ path t = fold_left append_segment names (path this))).
  - intros t seg sch rel _ _ (names & added & Hp & Hl & Hn & Hpath).
    exists (names ++ [seg])%list,
      (added ++ [{| parent_schema := schema t; parent_name := name t;
                    parent_id := id t |}])%list.
    cbn. rewrite Hp, Hpath, <- app_assoc, !length_app, Hl, map_app, fold_left_app.
    repeat split. cbn [map parent_name]. rewrite Hn. reflexivity.
  - intros t seg sch _ _ _ H. exact H.
  - intros t seg _ H. exact H.
  - exists [], []. rewrite app_nil_r. repeat split.
Qed.

(** X9: the id that [setRecord] leaves is a valid id whenever the id it
    found was one; the empty id of a fresh receiver is valid. *)
Theorem setRecord_keeps_id_valid (this : MantraData) :
  (_isId (JS.VString (id this)) = true ->
   _isId (JS.VString (id (snd (setRecord this)))) = true)
  /\ forall input, _isId (JS.VString (id (constructor input))) = true.
Proof.
  split; [|reflexivity].
  unfold setRecord. run.
  apply (setRecord_loop_invariant (fun t => _isId (JS.VString (id t)) = true)).
  - reflexivity.
  - intros t seg sch _ _ Hid _. exact Hid.
  - intros t seg _ H. exact H.
Qed.

(** X10: [setRecord] never loses the schema: from a schema in focus it
    ends on that schema or on one reached from it through relationships;
    and if the schema in focus carried the name in focus before, it does
    so after. *)
Theorem setRecord_keeps_schema (this : MantraData) (sch : Schema) :
  schema this = Some sch ->
  (exists sch', schema (snd (setRecord this)) = Some sch' /\ reaches sch sch')
  /\ (schema_name sch = name this ->
      exists sch', schema (snd (setRecord this)) = Some sch'
                   /\ schema_name sch' = name (snd (setRecord this))).
Proof.
  intros Hs. unfold setRecord. run. split.
  - apply (setRecord_loop_invariant
             (fun t => exists sch', schema t = Some sch' /\ reaches sch sch')).
    + intros t seg s rel Ht Hrel (s' & Hs' & Hreach).
      exists rel. split; [reflexivity|].
      rewrite Ht in Hs'. injection Hs' as <-.
      exact (reaches_step sch s rel seg Hreach Hrel).
    + intros t seg s _ _ _ H. exact H.
    + intros t seg _ H. exact H.
    + exists sch. split; [exact Hs | constructor].
  - intros Hn.
    apply (setRecord_loop_invariant
             (fun t => exists sch', schema t = Some sch' /\ schema_name sch' = name t)).
    + intros t seg s rel _ Hrel _. exists rel. split; [reflexivity|].
      exact (find_relationship_named seg s rel Hrel).
    + intros t seg s _ _ _ H. exact H.
    + intros t seg _ H. exact H.
    + exists sch. split; [exact Hs | exact Hn].
Qed.

(** X11: on a schema without relationships, as the [MantraSchema]
    constructor builds them, [setRecord] never moves: [schema], [name],
    [parents] and [path] are what they were; only [id] and [_path] can
    change. *)
Theorem setRecord_without_relationships (this : MantraData) (sch : Schema) :
  schema this = Some sch ->
  relationships sch = None ->
  schema (snd (setRecord this)) = Some sch
  /\ name (snd (setRecord this)) = name this
  /\ parents (snd (setRecord this)) = parents this
  /\ path (snd (setRecord this)) = path this
  /\ forall n a m, relationships (MantraSchema n a m) = None.
Proof.
  intros Hs Hr.
  assert (H : schema (snd (setRecord this)) = Some sch
              /\ name (snd (setRecord this)) = name this
              /\ parents (snd (setRecord this)) = parents this
              /\ path (snd (setRecord this)) = path this).
  { unfold setRecord. run.
    apply (setRecord_loop_invariant
             (fun t => schema t = Some sch /\ name t = name this
                       /\ parents t = parents this /\ path t = path this)).
    - intros t seg s rel Ht Hrel (Hs' & _). exfalso.
      rewrite Ht in Hs'. injection Hs' as ->.
      unfold find_relationship in Hrel. rewrite Hr in Hrel. discriminate Hrel.
    - intros t seg s _ _ _ H. exact H.
    - intros t seg _ H. exact H.
    - repeat split. exact Hs. }
  destruct H as (H1 & H2 & H3 & H4). repeat split; assumption.
Qed.

Lemma remove_go_sublist (lit : string) (s : string) :
  forall skip,
    list_ascii_of_string (JS.remove_go lit skip s)
      `sublist_of` list_ascii_of_string s.
Proof.
  induction s as [|c s IH]; intros skip; [constructor|].
  cbn [JS.remove_go list_ascii_of_string]. destruct skip as [|k].
  - destruct (JS.match_length lit (String c s)) as [[|k]|].
    + cbn [list_ascii_of_string]. apply sublist_skip, IH.
    + apply sublist_cons, IH.
    + cbn [list_ascii_of_string]. apply sublist_skip, IH.
  - apply sublist_cons, IH.
Qed.

(** X12: trimming only deletes: the characters left in [_path] by
    [setBase] and by [setRecord] are characters of the [_path] they
    found, in the same order, so [_path] never grows. *)
Theorem remaining_path_shrinks (schemas : gmap string Schema) (this : MantraData) :
  (list_ascii_of_string (_path (snd (setBase schemas this)))
     `sublist_of` list_ascii_of_string (_path this))
  /\ (list_ascii_of_string (_path (snd (setRecord this)))
        `sublist_of` list_ascii_of_string (_path this))
  /\ String.length (_path (snd (setRecord this))) <= String.length (_path this).
Proof.
  assert (Hrec : list_ascii_of_string (_path (snd (setRecord this)))
                   `sublist_of` list_ascii_of_string (_path this)).
  { unfold setRecord. run.
    apply (setRecord_loop_invariant
             (fun t => list_ascii_of_string (_path t)
                         `sublist_of` list_ascii_of_string (_path this))).
    - intros t seg s rel _ _ H. exact H.
    - intros t seg s _ _ _ H. exact H.
    - intros t seg _ H. cbn [_path set__path].
      etransitivity; [apply remove_go_sublist | exact H].
    - reflexivity. }
  split; [|split; [exact Hrec|]].
  - destruct (schemas !! getFirstPath (_path this)) as [sch|] eqn:E.
    + rewrite (setBase_found schemas this sch E), trimPath_eq.
      destruct (JS.literal_source (getFirstPath (_path this))); cbn; [|reflexivity].
      apply remove_go_sublist.
    + unfold setBase, _isSchema. run.
      rewrite bool_decide_eq_false_2 by (rewrite E; intros [? ?]; discriminate).
      reflexivity.
  - apply sublist_length in Hrec.
    assert (Hlen : forall s, length (list_ascii_of_string s) = String.length s).
    { intros s. induction s as [|c s IH]; cbn; [reflexivity | now rewrite IH]. }
    now rewrite !Hlen in Hrec.
Qed.

Lemma setRecord_loop_empty_segment (this : MantraData) (sch : Schema) :
  schema this = Some sch ->
  ~ relationship_name "" sch ->
  setRecord_loop [""] this
  = (Return tt, set__path (JS.remove_all "" (_path this)) (set_id "" this)).
Proof.
  intros Hs Hrel.
  rewrite (setRecord_loop_cons "" [] this sch Hs).
  destruct (find_relationship "" sch) as [rel|] eqn:E.
  { exfalso. apply Hrel, find_relationship_name. eauto. }
  change (_isId (JS.VString "")) with true. cbn iota.
  unfold bind. rewrite setId_eq, trimPath_eq. reflexivity.
Qed.

(** X13: with nothing left in [_path], [setRecord] still scans one empty
    segment, and unless it names a relationship that segment is taken
    for an id: the id is reset to the empty string, so a second call of
    [setRecord] forgets the id the first one found. *)
Theorem setRecord_on_empty_path (this : MantraData) (sch : Schema) :
  _path this = "" ->
  schema this = Some sch ->
  ~ relationship_name "" sch ->
  setRecord this = (Return tt, set_id "" this).
Proof.
  intros Hp Hs Hrel. unfold setRecord. run. rewrite Hp.
  change (JS.split "." "") with [""].
  rewrite (setRecord_loop_cons "" [] this sch Hs).
  destruct (find_relationship "" sch) as [rel|] eqn:E.
  { exfalso. apply Hrel, find_relationship_name. eauto. }
  change (_isId (JS.VString "")) with true. cbn iota.
  unfold bind. rewrite setId_eq, trimPath_eq. cbn.
  rewrite Hp. destruct this; cbn in *; subst; reflexivity.
Qed.


(* ================================================================== *)
(** ** Further properties: whole resolutions *)
(* ================================================================== *)

Lemma digit_is_literal (c : ascii) :
  JS.decimal_digit c = true -> JS.syntax_character c = false.
Proof. NumberFacts.by_cases_on c. Qed.

Lemma digits_are_literal (s : string) :
  forallb JS.decimal_digit (list_ascii_of_string s) = true ->
  JS.literal_source s = true.
Proof.
  induction s as [|c s IH]; [reflexivity|].
  cbn [list_ascii_of_string forallb JS.literal_source]. intros H.
  apply andb_true_iff in H as [Hc Hs].
  now rewrite (digit_is_literal c Hc), (IH Hs).
Qed.

Lemma digits_only_facts (i : string) :
  JS.digits_only i = true ->
  i <> "" /\ JS.literal_source i = true /\ _isId (JS.VString i) = true.
Proof.
  intros H. split; [|split].
  - intros ->. discriminate H.
  - apply digits_are_literal. unfold JS.digits_only, JS.some_all in H.
    destruct (list_ascii_of_string i); [discriminate | exact H].
  - unfold _isId. cbn. now rewrite (NumberFacts.StringToNumber_digits i H).
Qed.

Lemma setAction_default (this : MantraData) (sch : Schema) :
  schema this = Some sch ->
  no_unnamed_action sch ->
  _path this = "" ->
  setAction this = (Return tt, set_action (Some (default_action this)) this).
Proof.
  intros Hs Hno Hp. rewrite (setAction_eq this sch Hs), Hp.
  change (getFirstPath "") with "". unfold no_unnamed_action in Hno.
  destruct (actions sch) as [acts|]; [now rewrite Hno | reflexivity].
Qed.



(* ================================================================== *)
(** ** Further properties: which segments are ids *)
(* ================================================================== *)

Lemma letter_facts (c : ascii) :
  ascii_letter c = true ->
  JS.str_white_space c = false
  /\ JS.decimal_digit c = false
  /\ JS.one_of "+-" c = false
  /\ Ascii.eqb c "0" = false
  /\ Ascii.eqb c "." = false.
Proof.
  intros H. repeat split; revert H; NumberFacts.by_cases_on c.
Qed.

Lemma drop_while_last (p : ascii -> bool) (c : ascii) (l : list ascii) :
  p c = false -> JS.drop_while p (l ++ [c]) = (JS.drop_while p l ++ [c])%list.
Proof.
  intros Hc. induction l as [|d l IH]; cbn; [now rewrite Hc|].
  destruct (p d); [exact IH | reflexivity].
Qed.

(** White space is stripped around a first character that is not white
    space, never across it. *)
Lemma strip_keeps_head (c : ascii) (l : list ascii) :
  JS.str_white_space c = false ->
  exists l', JS.strip_white_space (c :: l) = c :: l'.
Proof.
  intros Hc. unfold JS.strip_white_space.
  cbn [JS.drop_while]. rewrite Hc. cbn [rev].
  rewrite (drop_while_last _ c _ Hc), List.rev_unit. eauto.
Qed.

Lemma letter_not_numeric (c : ascii) (l : list ascii) :
  ascii_letter c = true -> c <> "I"%char ->
  JS.str_numeric_literal (c :: l) = false.
Proof.
  intros Hc HI. destruct (letter_facts c Hc) as (_ & Hd & Hs & H0 & Hdot).
  assert (Hdec : JS.str_decimal_literal (c :: l) = false).
  { unfold JS.str_decimal_literal. rewrite Hs.
    unfold JS.str_unsigned_decimal_literal.
    destruct (decide (c :: l = list_ascii_of_string "Infinity")) as [E|_].
    - exfalso. apply HI. cbn in E. congruence.
    - cbn [JS.drop_while JS.take_while]. rewrite Hd, Hdot. reflexivity. }
  unfold JS.str_numeric_literal. destruct l as [|c1 r]; [exact Hdec|].
  rewrite H0. exact Hdec.
Qed.

(** X17: a segment that begins with a letter other than [I] is never an
    id, so unless it names a relationship of the schema in focus the scan
    stops at it and leaves the receiver as it is. *)
Theorem letter_segment_stops_scan (this : MantraData) (sch : Schema)
    (c : ascii) (s : string) (rest : list string) :
  ascii_letter c = true ->
  c <> "I"%char ->
  _isId (JS.VString (String c s)) = false
  /\ (schema this = Some sch ->
      ~ relationship_name (String c s) sch ->
      setRecord_loop (String c s :: rest) this = (Return tt, this)).
Proof.
  intros Hc HI.
  assert (Hid : _isId (JS.VString (String c s)) = false).
  { unfold _isId. cbn [JS.Number]. unfold JS.StringToNumber.
    cbn [list_ascii_of_string].
    destruct (strip_keeps_head c (list_ascii_of_string s)
                (proj1 (letter_facts c Hc))) as [l' ->].
    now rewrite (letter_not_numeric c l' Hc HI). }
  split; [exact Hid|]. intros Hs Hrel.
  rewrite (setRecord_loop_cons _ rest this sch Hs).
  destruct (find_relationship (String c s) sch) as [rel|] eqn:E.
  { exfalso. apply Hrel, find_relationship_name. eauto. }
  now rewrite Hid.
Qed.

(** X18: a segment made of white space only, the empty segment among
    them, is a valid id. *)
Theorem blank_segment_is_id (s : string) :
  white_space_only s = true -> _isId (JS.VString s) = true.
Proof.
  unfold white_space_only. intros H.
  unfold _isId. cbn [JS.Number]. unfold JS.StringToNumber, JS.strip_white_space.
  rewrite (NumberFacts.drop_while_all _ _ H). reflexivity.
Qed.


(* ================================================================== *)
(** ** The further properties at work on the registry *)
(* ================================================================== *)

Lemma users_relationships (seg : string) :
  seg <> "posts" -> ~ relationship_name seg users_schema.
Proof.
  intros Hseg (rels & rel & Hrels & Hin & Hname).
  injection Hrels as <-. destruct Hin as [<- | []]. now apply Hseg.
Qed.

Lemma getFirstPath_prefix_witness : getFirstPath "users" = "users".
Proof. apply (proj2 (proj2 (getFirstPath_prefix "users"))). reflexivity. Defined.

Lemma getEndpoint_segments_witness :
  exists e,
    getEndpoint data_without_model = (Return e, data_without_model)
    /\ JS.split "/" e = ["users"; "posts"].
Proof.
  destruct (getEndpoint_segments data_without_model) as (e & He & _ & _ & Hs).
  exists e. split; [exact He | exact (Hs eq_refl)].
Defined.

Lemma derived_alias_is_one_segment_witness :
  fst (setEndpoint data_with_unnamed_model) = Return tt
  /\ has_char "." (alias (snd (setEndpoint data_with_unnamed_model))) = false.
Proof.
  destruct (derived_alias_is_one_segment data_with_unnamed_model
              {| model_name := None |} eq_refl (or_introl eq_refl))
    as (H1 & _ & H2 & _).
  split; [exact H1 | exact H2].
Defined.

Lemma storage_paths_witness :
  exists config,
    configPath (constructor "users") = (Return config, constructor "users")
    /\ config = "undefined.".
Proof.
  destruct (storage_paths (constructor "users"))
    as (store & config & state & source & _ & Hc & _ & _ & _ & _ & _ & _ & Hroot).
  exists config. split; [exact Hc | exact (Hroot eq_refl)].
Defined.

Lemma setEndpoint_without_model_witness :
  setEndpoint data_without_model
  = (Throw TypeError, set_endpoint "users/posts" data_without_model).
Proof. apply (proj1 (setEndpoint_without_model data_without_model eq_refl)). Defined.

Lemma setRecord_throws_witness :
  setRecord (constructor "users.5") = (Throw TypeError, constructor "users.5").
Proof. exact (proj1 (setRecord_throws (constructor "users.5") eq_refl)). Defined.


Lemma setRecord_keeps_id_valid_witness :
  _isId (JS.VString (id (snd (setRecord at_users)))) = true.
Proof. apply (proj1 (setRecord_keeps_id_valid at_users)). reflexivity. Defined.

Lemma setRecord_keeps_schema_witness :
  exists sch',
    schema (snd (setRecord at_users)) = Some sch' /\ reaches users_schema sch'.
Proof. exact (proj1 (setRecord_keeps_schema at_users users_schema eq_refl)). Defined.

Lemma setRecord_without_relationships_witness :
  schema (snd (setRecord at_fresh_schema)) = Some (MantraSchema "posts" None None)
  /\ parents (snd (setRecord at_fresh_schema)) = [].
Proof.
  destruct (setRecord_without_relationships at_fresh_schema
              (MantraSchema "posts" None None) eq_refl eq_refl)
    as (H1 & _ & H2 & _).
  split; [exact H1 | exact H2].
Defined.

Lemma setRecord_on_empty_path_witness :
  setRecord users_5_resolved = (Return tt, set_id "" users_5_resolved).
Proof.
  apply (setRecord_on_empty_path users_5_resolved users_schema eq_refl eq_refl).
  apply users_relationships. discriminate.
Defined.




Lemma letter_segment_stops_scan_witness :
  _isId (JS.VString "create") = false
  /\ setRecord_loop ["create"] at_posts = (Return tt, at_posts).
Proof.
  destruct (letter_segment_stops_scan at_posts posts_schema "c" "reate" [] eq_refl)
    as (H1 & H2); [discriminate|].
  split; [exact H1|]. apply H2; [reflexivity|].
  intros (rels & rel & Hrels & _). discriminate Hrels.
Defined.

Lemma blank_segment_is_id_witness : _isId (JS.VString "  ") = true.
Proof. apply blank_segment_is_id. reflexivity. Defined.


(* ================================================================== *)
(** ** Further properties: segments that are not literal text *)
(* ================================================================== *)

Lemma strip_clean_ends (l : list ascii) :
  match l with c :: _ => JS.str_white_space c = false | [] => True end ->
  match rev l with c :: _ => JS.str_white_space c = false | [] => True end ->
  JS.strip_white_space l = l.
Proof.
  intros Hhead Hlast. unfold JS.strip_white_space.
  destruct l as [|c l]; [reflexivity|].
  cbn [JS.drop_while]. rewrite Hhead.
  destruct (rev (c :: l)) as [|d r] eqn:E.
  - apply (f_equal (@rev ascii)) in E. rewrite rev_involutive in E. discriminate E.
  - cbn [JS.drop_while]. rewrite Hlast, <- E. apply rev_involutive.
Qed.

Lemma signed_digits_is_id (i : string) :
  JS.digits_only i = true -> _isId (JS.VString (String "+" i)) = true.
Proof.
  unfold JS.digits_only, JS.some_all. intros H.
  destruct (list_ascii_of_string i) as [|c1 r] eqn:E; [discriminate|].
  unfold _isId. cbn [JS.Number]. unfold JS.StringToNumber.
  cbn [list_ascii_of_string]. rewrite E.
  rewrite strip_clean_ends.
  - cbn. rewrite (NumberFacts.unsigned_digits (c1 :: r)); [reflexivity | discriminate | exact H].
  - reflexivity.
  - pose proof (NumberFacts.forallb_rev_digits _ H) as Hrev.
    change (rev ("+"%char :: c1 :: r)) with (rev (c1 :: r) ++ ["+"%char])%list.
    destruct (rev (c1 :: r)) as [|d r'] eqn:Er.
    + reflexivity.
    + cbn in Hrev. apply andb_true_iff in Hrev as [Hd _].
      exact (NumberFacts.digit_not_space d Hd).
Qed.

(** X22: a digit-only id with a plus sign before it, such as [+5], is a
    valid id, and at such a segment that names no relationship the scan
    of [setRecord] sets [id] to it and then ends in a SyntaxError: the
    segments behind it are not scanned. *)
Theorem signed_id_aborts_scan (this : MantraData) (sch : Schema)
    (i : string) (rest : list string) :
  schema this = Some sch ->
  JS.digits_only i = true ->
  ~ relationship_name (String "+" i) sch ->
  _isId (JS.VString (String "+" i)) = true
  /\ setRecord_loop (String "+" i :: rest) this
     = (Throw SyntaxError, set_id (String "+" i) this).
Proof.
  intros Hs Hi Hrel. pose proof (signed_digits_is_id i Hi) as Hid.
  split; [exact Hid|].
  rewrite (setRecord_loop_cons _ rest this sch Hs).
  destruct (find_relationship (String "+" i) sch) as [rel|] eqn:E.
  { exfalso. apply Hrel, find_relationship_name. eauto. }
  rewrite Hid. unfold bind. rewrite setId_eq, trimPath_eq. reflexivity.
Qed.

Lemma end_then_literal_returns (seg : string) :
  JS.end_then_literal seg = true ->
  JS.literal_source seg = false /\ beyond_literal seg = Return tt.
Proof.
  destruct seg as [|c [|d r]]; try discriminate.
  cbn [JS.end_then_literal]. intros H. apply andb_true_iff in H as [Hc Hl].
  apply Ascii.eqb_eq in Hc. subst c.
  split; [reflexivity|].
  unfold beyond_literal, pathWord.
  change (JS.literal_source (String "$" (String d r))) with false.
  change (JS.starts_with_quantifier (String "$" (String d r))) with false.
  change (JS.literal_then_open_group (String "$" (String d r))) with false.
  cbn [JS.end_then_literal]. now rewrite Hl.
Qed.

(** X23: when the first segment of [_path] is a registered name made of
    [$] and literal text, [setBase] binds [schema] and [name], appends
    the segment to [path] and returns, but trims nothing: [_path] is
    what it was. *)
Theorem setBase_trims_nothing (schemas : gmap string Schema)
    (this : MantraData) (sch : Schema) :
  schemas !! getFirstPath (_path this) = Some sch ->
  JS.end_then_literal (getFirstPath (_path this)) = true ->
  setBase schemas this
  = (Return tt,
     set_path (append_segment (path this) (getFirstPath (_path this)))
       (set_schema (Some sch) (set_name (getFirstPath (_path this)) this)))
  /\ _path (snd (setBase schemas this)) = _path this.
Proof.
  intros Hreg Hend.
  destruct (end_then_literal_returns _ Hend) as [Hlit Hret].
  rewrite (setBase_found schemas this sch Hreg), trimPath_eq, Hlit, Hret.
  split; reflexivity.
Qed.

Lemma signed_id_aborts_scan_witness :
  setRecord (set__path "+5.posts" at_users)
  = (Throw SyntaxError, set_id "+5" (set__path "+5.posts" at_users)).
Proof.
  unfold setRecord. run.
  change (JS.split "." (_path (set__path "+5.posts" at_users))) with ["+5"; "posts"].
  apply (proj2 (signed_id_aborts_scan (set__path "+5.posts" at_users) users_schema
                  "5" ["posts"] eq_refl eq_refl
                  (users_relationships "+5" ltac:(discriminate)))).
Defined.

Lemma setBase_trims_nothing_witness :
  fst (setBase unescaped_registry (constructor "$users.5")) = Return tt
  /\ _path (snd (setBase unescaped_registry (constructor "$users.5"))) = "$users.5".
Proof.
  destruct (setBase_trims_nothing unescaped_registry (constructor "$users.5")
              users_schema eq_refl eq_refl) as [H1 H2].
  split; [now rewrite H1 | exact H2].
Defined.
